(** * Premier Schools Exhibition front end (script.js): a shallow embedding

    The widgets of [script.js] are event-driven objects.  Each one is
    modelled as a record of its fields and a function per method, taking
    the object's state to its next state.  The DOM measurements a method
    reads (the viewport width, [cards[0].offsetWidth], the reduced-motion
    media query) are passed in as arguments. JS numbers that only ever hold
    integers here (indices, lengths, pixel widths) are [Z]. *)

From Stdlib Require Import ZArith List String Ascii Bool Lia.
Import ListNotations.
Open Scope Z_scope.

(** ** Utilities *)

(** [Math.min], [Math.max] and [Math.abs] on integral numbers. *)
Definition js_min (a b : Z) : Z := Z.min a b.
Definition js_max (a b : Z) : Z := Z.max a b.
Definition js_abs (a : Z) : Z := Z.abs a.

(** [x % n] for [x >= 0] and [n > 0]: JS's remainder, which agrees with
    [Z.modulo] on non-negative operands. *)
Definition js_rem (x n : Z) : Z := Z.rem x n.

(** [Math.round(a / b)] for integers [a] and a positive [b]:
    [Math.round(x) = floor(x + 1/2)]. *)
Definition js_round_div (a b : Z) : Z := (2 * a + b) / (2 * b).

(** The rendered transform of a track: [translateX(offset px)] and whether
    the inline [transition] was set to ['none']. *)
Record track_style := mkStyle {
  transformX : Z;
  transition_none : bool
}.

(** The width of the first card, [cards[0]?.offsetWidth], is read by each
    handler when it runs.  A run in which every event carries the reading
    its handler makes is a list of [(reading, event)] pairs. *)
Definition same_reading (a b : option Z) : bool :=
  match a, b with
  | Some x, Some y => x =? y
  | None, None => true
  | _, _ => false
  end.

(** The reading of the last event, [c] for an empty run. *)
Fixpoint last_reading {E : Type} (c : option Z) (es : list (option Z * E)) : option Z :=
  match es with
  | [] => c
  | (c', _) :: rest => last_reading c' rest
  end.

(** The reading changes, starting from [c], only at events for which
    [is_resize] holds: the layout changes with the viewport, and the
    debounced resize handler runs before any other handler sees the new
    width. *)
Fixpoint changes_only_at {E : Type} (is_resize : E -> bool) (c : option Z)
    (es : list (option Z * E)) : bool :=
  match es with
  | [] => true
  | (c', e) :: rest => (same_reading c' c || is_resize e) && changes_only_at is_resize c' rest
  end.

(** ** Hero slider (class HeroSlider) *)
Module HeroSlider.

Record state := mkState {
  currentSlide : Z;
  slideCount : Z;           (* this.slides.length *)
  active : list bool        (* hero__slide--active flag of each slide *)
}.

(** [updateSlider]: toggle the active class of every slide. *)
Definition updateSlider (s : state) : state :=
  mkState (currentSlide s) (slideCount s)
    (map (fun i => Z.eqb (Z.of_nat i) (currentSlide s))
         (seq 0 (Z.to_nat (slideCount s)))).

Definition goToNextSlide (s : state) : state :=
  updateSlider (mkState (js_rem (currentSlide s + 1) (slideCount s))
                        (slideCount s) (active s)).

Definition goToPrevSlide (s : state) : state :=
  updateSlider (mkState (js_rem (currentSlide s - 1 + slideCount s) (slideCount s))
                        (slideCount s) (active s)).

Definition handleSwipe (startX endX : Z) (s : state) : state :=
  let diff := startX - endX in
  let threshold := 50 in
  if js_abs diff >? threshold then
    if diff >? 0 then goToNextSlide s else goToPrevSlide s
  else s.

(** The constructor: [currentSlide = 0]; the slide classes come from the
    markup (the first slide carries the active class). *)
Definition create (n : Z) : state :=
  mkState 0 n (map (fun i => Nat.eqb i 0) (seq 0 (Z.to_nat n))).

(** Events reaching the slider once [init] registered its listeners:
    buttons, arrow keys and the autoplay tick call next/prev, touch
    calls [handleSwipe].  [init] returns before registering anything when
    there are no slides. *)
Inductive event :=
| Next | Prev | Swipe (startX endX : Z).

Definition dispatch (e : event) (s : state) : state :=
  if slideCount s =? 0 then s else
  match e with
  | Next => goToNextSlide s
  | Prev => goToPrevSlide s
  | Swipe a b => handleSwipe a b s
  end.

Definition run (es : list event) (s : state) : state :=
  fold_left (fun st e => dispatch e st) es s.

End HeroSlider.

(** ** Choose-school slider (class ChooseSchoolSlider) *)
Module ChooseSchoolSlider.

Record state := mkState {
  currentIndex : Z;
  cardsPerView : Z;
  maxIndex : Z;
  cardCount : Z;             (* this.cards.length *)
  dotCount : nat;            (* this.dots.length *)
  style : track_style;       (* this.track.style *)
  dots : list bool;          (* choose-school__dot--active / aria-selected *)
  prevDisabled : bool;
  nextDisabled : bool
}.

(** [getCardsPerView], reading [window.innerWidth]. *)
Definition getCardsPerView (width : Z) : Z :=
  if width <? 480 then 1 else
  if width <? 768 then 1 else
  if width <? 1024 then 2 else 4.

(** [updateSlider]; [cardWidth0] is [this.cards[0]?.offsetWidth]
    ([None] when there is no card) and [reduced] the media query. *)
Definition updateSlider (cardWidth0 : option Z) (reduced : bool) (s : state) : state :=
  let cardWidth := match cardWidth0 with Some w => w | None => 0 end in
  let gap := 24 in
  let offset := - (currentIndex s * (cardWidth + gap)) in
  let st := if negb reduced then mkStyle offset (transition_none (style s))
            else mkStyle offset true in
  mkState (currentIndex s) (cardsPerView s) (maxIndex s) (cardCount s) (dotCount s)
    st
    (map (fun i => Z.eqb (Z.of_nat i) (currentIndex s)) (seq 0 (dotCount s)))
    (currentIndex s =? 0)
    (currentIndex s =? maxIndex s).

Definition set_index (i : Z) (s : state) : state :=
  mkState i (cardsPerView s) (maxIndex s) (cardCount s) (dotCount s)
    (style s) (dots s) (prevDisabled s) (nextDisabled s).

Definition goToNext cw rm (s : state) : state :=
  if currentIndex s <? maxIndex s
  then updateSlider cw rm (set_index (currentIndex s + 1) s) else s.

Definition goToPrev cw rm (s : state) : state :=
  if currentIndex s >? 0
  then updateSlider cw rm (set_index (currentIndex s - 1) s) else s.

Definition goToIndex cw rm (index : Z) (s : state) : state :=
  updateSlider cw rm (set_index (js_min index (maxIndex s)) s).

Definition handleSwipe cw rm (startX endX : Z) (s : state) : state :=
  let diff := startX - endX in
  let threshold := 50 in
  if js_abs diff >? threshold then
    if diff >? 0 then goToNext cw rm s else goToPrev cw rm s
  else s.

(** The debounced resize callback registered by [handleResize]. *)
Definition onResize cw rm (width : Z) (s : state) : state :=
  let cpv := getCardsPerView width in
  let mx := js_max 0 (cardCount s - cpv) in
  updateSlider cw rm
    (mkState (js_min (currentIndex s) mx) cpv mx (cardCount s) (dotCount s)
             (style s) (dots s) (prevDisabled s) (nextDisabled s)).

(** The constructor (before [init]). *)
Definition create (width n : Z) (ndots : nat) : state :=
  let cpv := getCardsPerView width in
  mkState 0 cpv (js_max 0 (n - cpv)) n ndots (mkStyle 0 false) [] false false.

Inductive event :=
| Next | Prev
| GoTo (index : Z)
| Swipe (startX endX : Z)
| Resize (width : Z).

(** The DOM readings of the handlers ([cards[0]?.offsetWidth] and the
    reduced-motion query) are the parameters [cw] and [rm]; [init]
    registers no listener when there are no cards. *)
Definition dispatch (cw : option Z) (rm : bool) (e : event) (s : state) : state :=
  if cardCount s =? 0 then s else
  match e with
  | Next => goToNext cw rm s
  | Prev => goToPrev cw rm s
  | GoTo i => goToIndex cw rm i s
  | Swipe a b => handleSwipe cw rm a b s
  | Resize w => onResize cw rm w s
  end.

Definition run cw rm (es : list event) (s : state) : state :=
  fold_left (fun st e => dispatch cw rm e st) es s.

(** A run in which each handler reads [cards[0]?.offsetWidth] itself. *)
Definition run_reading rm (es : list (option Z * event)) (s : state) : state :=
  fold_left (fun st p => dispatch (fst p) rm (snd p) st) es s.

Definition is_resize (e : event) : bool :=
  match e with Resize _ => true | _ => false end.

(** [init]: the first render (the resize listener is what [handleResize]
    adds); nothing happens without cards. *)
Definition init cw rm (s : state) : state :=
  if cardCount s =? 0 then s else updateSlider cw rm s.

End ChooseSchoolSlider.

(** ** Exhibition benefits slider (class ExhibitionBenefitsSlider) *)
Module ExhibitionBenefitsSlider.

Record state := mkState {
  currentIndex : Z;
  cardsPerView : Z;
  maxIndex : Z;
  cardCount : Z;
  hasTrack : bool;           (* this.track !== null *)
  activated : bool;          (* this._activated *)
  style : track_style;
  prevDisabled : bool;
  nextDisabled : bool;
  (* variables closed over by the listeners of [setupEventListeners] *)
  touchStartX : Z;
  isDragging : bool;
  startX : Z;
  prevTranslate : Z;
  currentTranslate : Z
}.

Definition getCardsPerView (width : Z) : Z :=
  if width <? 480 then 1 else
  if width <? 768 then 1 else
  if width <? 1024 then 2 else 4.

Definition with_index (i : Z) (s : state) : state :=
  {| currentIndex := i; cardsPerView := cardsPerView s; maxIndex := maxIndex s;
     cardCount := cardCount s; hasTrack := hasTrack s; activated := activated s;
     style := style s; prevDisabled := prevDisabled s; nextDisabled := nextDisabled s;
     touchStartX := touchStartX s; isDragging := isDragging s; startX := startX s;
     prevTranslate := prevTranslate s; currentTranslate := currentTranslate s |}.

Definition with_style (st : track_style) (s : state) : state :=
  {| currentIndex := currentIndex s; cardsPerView := cardsPerView s; maxIndex := maxIndex s;
     cardCount := cardCount s; hasTrack := hasTrack s; activated := activated s;
     style := st; prevDisabled := prevDisabled s; nextDisabled := nextDisabled s;
     touchStartX := touchStartX s; isDragging := isDragging s; startX := startX s;
     prevTranslate := prevTranslate s; currentTranslate := currentTranslate s |}.

Definition updateSlider (cardWidth0 : option Z) (reduced : bool) (s : state) : state :=
  let cardWidth := match cardWidth0 with Some w => w | None => 0 end in
  let gap := 24 in
  let offset := - (currentIndex s * (cardWidth + gap)) in
  let st := if negb reduced then mkStyle offset (transition_none (style s))
            else mkStyle offset true in
  {| currentIndex := currentIndex s; cardsPerView := cardsPerView s; maxIndex := maxIndex s;
     cardCount := cardCount s; hasTrack := hasTrack s; activated := activated s;
     style := st;
     prevDisabled := currentIndex s =? 0;
     nextDisabled := currentIndex s =? maxIndex s;
     touchStartX := touchStartX s; isDragging := isDragging s; startX := startX s;
     prevTranslate := prevTranslate s; currentTranslate := currentTranslate s |}.

Definition goToNext cw rm (s : state) : state :=
  if currentIndex s <? maxIndex s
  then updateSlider cw rm (with_index (currentIndex s + 1) s) else s.

Definition goToPrev cw rm (s : state) : state :=
  if currentIndex s >? 0
  then updateSlider cw rm (with_index (currentIndex s - 1) s) else s.

Definition handleSwipe cw rm (startX endX : Z) (s : state) : state :=
  let diff := startX - endX in
  let threshold := 50 in
  if js_abs diff >? threshold then
    if diff >? 0 then goToNext cw rm s else goToPrev cw rm s
  else s.

Definition onResize cw rm (width : Z) (s : state) : state :=
  let cpv := getCardsPerView width in
  let mx := js_max 0 (cardCount s - cpv) in
  updateSlider cw rm
    {| currentIndex := js_min (currentIndex s) mx; cardsPerView := cpv; maxIndex := mx;
       cardCount := cardCount s; hasTrack := hasTrack s; activated := activated s;
       style := style s; prevDisabled := prevDisabled s; nextDisabled := nextDisabled s;
       touchStartX := touchStartX s; isDragging := isDragging s; startX := startX s;
       prevTranslate := prevTranslate s; currentTranslate := currentTranslate s |}.

(** The touchstart listener that records [touchStartX]. *)
Definition onTouchStartSwipe (x : Z) (s : state) : state :=
  {| currentIndex := currentIndex s; cardsPerView := cardsPerView s; maxIndex := maxIndex s;
     cardCount := cardCount s; hasTrack := hasTrack s; activated := activated s;
     style := style s; prevDisabled := prevDisabled s; nextDisabled := nextDisabled s;
     touchStartX := x; isDragging := isDragging s; startX := startX s;
     prevTranslate := prevTranslate s; currentTranslate := currentTranslate s |}.

Definition onPointerDown (x : Z) (s : state) : state :=
  {| currentIndex := currentIndex s; cardsPerView := cardsPerView s; maxIndex := maxIndex s;
     cardCount := cardCount s; hasTrack := hasTrack s; activated := activated s;
     style := mkStyle (transformX (style s)) true;
     prevDisabled := prevDisabled s; nextDisabled := nextDisabled s;
     touchStartX := touchStartX s; isDragging := true; startX := x;
     prevTranslate := currentTranslate s; currentTranslate := currentTranslate s |}.

Definition onPointerMove (x : Z) (s : state) : state :=
  if negb (isDragging s) then s else
  let movedBy := x - startX s in
  let ct := prevTranslate s + movedBy in
  {| currentIndex := currentIndex s; cardsPerView := cardsPerView s; maxIndex := maxIndex s;
     cardCount := cardCount s; hasTrack := hasTrack s; activated := activated s;
     style := mkStyle ct (transition_none (style s));
     prevDisabled := prevDisabled s; nextDisabled := nextDisabled s;
     touchStartX := touchStartX s; isDragging := isDragging s; startX := startX s;
     prevTranslate := prevTranslate s; currentTranslate := ct |}.

Definition onPointerUp cw rm (s : state) : state :=
  if negb (isDragging s) then s else
  let cardWidth := match cw with Some w => w | None => 0 end in
  let gap := 24 in
  let slideWidth := cardWidth + gap in
  let index := js_round_div (- currentTranslate s) slideWidth in
  updateSlider cw rm
    {| currentIndex := js_max 0 (js_min (maxIndex s) index);
       cardsPerView := cardsPerView s; maxIndex := maxIndex s;
       cardCount := cardCount s; hasTrack := hasTrack s; activated := activated s;
       style := mkStyle (transformX (style s)) false;
       prevDisabled := prevDisabled s; nextDisabled := nextDisabled s;
       touchStartX := touchStartX s; isDragging := false; startX := startX s;
       prevTranslate := prevTranslate s; currentTranslate := currentTranslate s |}.

Definition onWheel cw rm (deltaX deltaY : Z) (s : state) : state :=
  if js_abs deltaY >? js_abs deltaX then
    if deltaY >? 5 then goToNext cw rm s
    else if deltaY <? -5 then goToPrev cw rm s
    else s
  else s.

(** The constructor with [autoInit = false]: no listener, no render. *)
Definition create (width n : Z) (track : bool) : state :=
  let cpv := getCardsPerView width in
  {| currentIndex := 0; cardsPerView := cpv; maxIndex := js_max 0 (n - cpv);
     cardCount := n; hasTrack := track; activated := false;
     style := mkStyle 0 false; prevDisabled := false; nextDisabled := false;
     touchStartX := 0; isDragging := false; startX := 0;
     prevTranslate := 0; currentTranslate := 0 |}.

Definition set_activated (s : state) : state :=
  {| currentIndex := currentIndex s; cardsPerView := cardsPerView s; maxIndex := maxIndex s;
     cardCount := cardCount s; hasTrack := hasTrack s; activated := true;
     style := style s; prevDisabled := prevDisabled s; nextDisabled := nextDisabled s;
     touchStartX := touchStartX s; isDragging := isDragging s; startX := startX s;
     prevTranslate := prevTranslate s; currentTranslate := currentTranslate s |}.

(** [init]: the listeners exist from now on (dispatch checks [activated]). *)
Definition init cw rm (s : state) : state :=
  if activated s then s else
  if negb (hasTrack s) || (cardCount s =? 0) then s else
  updateSlider cw rm (set_activated s).

(** DOM events reaching the slider.  One touch fires both the swipe
    listeners and the drag listeners, in the order they were added. *)
Inductive event :=
| ClickNext | ClickPrev | KeyLeft | KeyRight
| TouchStart (x : Z) | TouchMove (x : Z) | TouchEnd (x : Z)
| MouseDown (x : Z) | MouseMove (x : Z) | MouseUp
| Wheel (deltaX deltaY : Z)
| Resize (width : Z).

Definition dispatch cw rm (e : event) (s : state) : state :=
  if negb (activated s) then s else
  match e with
  | ClickNext | KeyRight => goToNext cw rm s
  | ClickPrev | KeyLeft => goToPrev cw rm s
  | TouchStart x => onPointerDown x (onTouchStartSwipe x s)
  | TouchMove x => onPointerMove x s
  | TouchEnd x => onPointerUp cw rm (handleSwipe cw rm (touchStartX s) x s)
  | MouseDown x => onPointerDown x s
  | MouseMove x => onPointerMove x s
  | MouseUp => onPointerUp cw rm s
  | Wheel dx dy => onWheel cw rm dx dy s
  | Resize w => onResize cw rm w s
  end.

Definition run cw rm (es : list event) (s : state) : state :=
  fold_left (fun st e => dispatch cw rm e st) es s.

(** A run in which each handler reads [cards[0]?.offsetWidth] itself. *)
Definition run_reading rm (es : list (option Z * event)) (s : state) : state :=
  fold_left (fun st p => dispatch (fst p) rm (snd p) st) es s.

Definition is_resize (e : event) : bool :=
  match e with Resize _ => true | _ => false end.

End ExhibitionBenefitsSlider.

(** ** Form validation (class FormValidator) *)
Module FormValidator.

Open Scope string_scope.

(** An [<input>] of the form: [id], [name], [type], the [required]
    attribute and the current [value]. *)
Record field := mkField {
  id : string;
  name : string;
  type_ : string;
  required : bool;
  value : string
}.

(** Callbacks handed to [setTimeout]. *)
Inductive timer_cb := RemoveSuccess.

(** The observable effects of the validator's handlers. *)
Inductive effect :=
| PreventDefault                        (* e.preventDefault() on submit *)
| ClearError (fid : string)             (* clearError(field) *)
| ShowError (fid : string) (message : string)
| ConsoleLog (label : string) (data : list (string * string))
| AppendSuccess (text : string)         (* this.form.appendChild(successDiv) *)
| SetTimeout (ms : Z) (cb : timer_cb)
| FormReset.                            (* this.form.reset() *)

(** A writer monad for the effect trace. *)
Definition M (A : Type) : Type := (A * list effect)%type.
Definition ret {A} (a : A) : M A := (a, []).
Definition bind {A B} (m : M A) (f : A -> M B) : M B :=
  let (a, w1) := m in let (b, w2) := f a in (b, (w1 ++ w2)%list).
Definition tell (e : effect) : M unit := (tt, [e]).

Notation "x <- m ;; k" := (bind m (fun x => k))
  (at level 61, m at next level, right associativity).
Notation "m ;;; k" := (bind m (fun _ => k))
  (at level 61, right associativity).

(** [String.prototype.trim] over 8-bit characters: the characters JS
    counts as white space or line terminators in that range
    (TAB, LF, VT, FF, CR, SPACE, NBSP). *)
Definition is_ws (c : ascii) : bool :=
  existsb (Nat.eqb (nat_of_ascii c)) [9; 10; 11; 12; 13; 32; 160]%nat.

Fixpoint trim_left (s : string) : string :=
  match s with
  | EmptyString => EmptyString
  | String c s' => if is_ws c then trim_left s' else s
  end.

Definition rev_string (s : string) : string :=
  string_of_list_ascii (rev (list_ascii_of_string s)).

Definition trim (s : string) : string :=
  rev_string (trim_left (rev_string (trim_left s))).

(** [/^[0-9]{10}$/.test(v)]. *)
Definition is_digit (c : ascii) : bool :=
  (48 <=? nat_of_ascii c)%nat && (nat_of_ascii c <=? 57)%nat.

Definition phoneRegex_test (v : string) : bool :=
  (String.length v =? 10)%nat && forallb is_digit (list_ascii_of_string v).

Definition msg_required := "This field is required".
Definition msg_phone := "Please enter a valid 10-digit phone number".

(** The decision of [validateField]: [(isValid, errorMessage)]. *)
Definition fieldCheck (f : field) : bool * string :=
  let v := trim (value f) in
  if required f && (v =? "") then (false, msg_required)
  else if (type_ f =? "tel") && negb (v =? "") then
    if negb (phoneRegex_test v) then (false, msg_phone) else (true, "")
  else (true, "").

Definition clearError (f : field) : M unit := tell (ClearError (id f)).

Definition showError (f : field) (message : string) : M unit :=
  clearError f ;;; tell (ShowError (id f) message).

Definition validateField (f : field) : M bool :=
  let (isValid, errorMessage) := fieldCheck f in
  (if negb isValid then showError f errorMessage else clearError f) ;;;
  ret isValid.

(** The [forEach] of [validateForm]: every field is validated. *)
Fixpoint validate_each (inputs : list field) (isValid : bool) : M bool :=
  match inputs with
  | [] => ret isValid
  | f :: rest =>
      ok <- validateField f ;;
      validate_each rest (if negb ok then false else isValid)
  end.

(** [querySelectorAll('input[required]')], in document order. *)
Definition validateForm (form : list field) : M bool :=
  validate_each (filter required form) true.

(** [Object.fromEntries(new FormData(form).entries())]: the named
    controls with their values. *)
Definition formData (form : list field) : list (string * string) :=
  map (fun f => (name f, value f)) (filter (fun f => negb (name f =? "")) form).

Definition success_text := "Thank you! We will contact you soon.".

Definition showSuccessMessage : M unit :=
  tell (AppendSuccess success_text) ;;;
  tell (SetTimeout 5000 RemoveSuccess).

Definition handleSubmit (form : list field) : M unit :=
  tell (ConsoleLog "Form submitted:" (formData form)) ;;;
  showSuccessMessage ;;;
  tell FormReset.

(** The submit listener registered by [init]. *)
Definition onSubmit (form : list field) : M unit :=
  tell PreventDefault ;;;
  ok <- validateForm form ;;
  (if ok then handleSubmit form else ret tt).

(** The blur listener of every input. *)
Definition onBlur (f : field) : M bool := validateField f.

End FormValidator.

(** ** Page: scroll animations and the lazily activated benefits slider *)
Module Page.

Module B := ExhibitionBenefitsSlider.

(** The sections matched by
    [.stats, .participating-schools, .choose-school, .appointments,
     .exhibition-benefits]. *)
Inductive section :=
| Stats | ParticipatingSchools | ChooseSchool | Appointments | ExhibitionBenefits.

Definition section_eq_dec (a b : section) : {a = b} + {a <> b}.
Proof. decide equality. Defined.

Definition tracked : list section :=
  [Stats; ParticipatingSchools; ChooseSchool; Appointments; ExhibitionBenefits].



Record state := mkState {
  observer : option (list section);   (* None: no IntersectionObserver; Some l: its targets *)
  queued : list (section * bool);     (* entries queued for the next callback *)
  revealLog : list section;           (* one entry per classList.add('animate-in') *)
  benefitsSlider : option B.state;    (* window.__benefitsSlider *)
  benefitsInitCalls : nat             (* calls of window.__benefitsSlider.init() *)
}.

(** [document.querySelector('.exhibition-benefits__container')] gives
    [Some (innerWidth, cards.length, track present)] when it exists. *)
Definition createBenefits (c : option (Z * Z * bool)) : option B.state :=
  match c with
  | Some (w, n, t) => Some (B.create w n t)
  | None => None
  end.

(** [initScrollAnimations]. *)
Definition initScrollAnimations (reduced : bool) (st : state) : state :=
  if reduced then st
  else mkState (Some tracked) (queued st) (revealLog st) (benefitsSlider st)
         (benefitsInitCalls st).

(** The part of [init()] these widgets take part in. *)
Definition load (reduced : bool) (c : option (Z * Z * bool)) : state :=
  initScrollAnimations reduced (mkState None [] [] (createBenefits c) 0).

(** The body of [entries.forEach(entry => ...)] for one entry.  It does not
    check whether the target is still observed. *)
Definition onEntry cw rm (target : section) (isIntersecting : bool) (st : state) : state :=
  if isIntersecting then
    let log := revealLog st ++ [target] in
    let '(bs, calls) :=
      if section_eq_dec target ExhibitionBenefits then
        match benefitsSlider st with
        | Some b => (Some (B.init cw rm b), S (benefitsInitCalls st))
        | None => (None, benefitsInitCalls st)
        end
      else (benefitsSlider st, benefitsInitCalls st) in
    mkState (option_map (remove section_eq_dec target) (observer st)) (queued st) log bs calls
  else st.

(** The observer callback over a batch of entries, in order. *)
Definition callback cw rm (entries : list (section * bool)) (st : state) : state :=
  fold_left (fun s en => onEntry cw rm (fst en) (snd en) s) entries st.

(** [Intersection t b]: the browser finds that the intersection of the
    observed target [t] crossed the threshold and queues an entry; targets
    no longer observed get none.  [Deliver]: the browser runs the callback
    with every queued entry.  [Benefits e]: an event of the benefits
    slider. *)
Inductive event :=
| Intersection (target : section) (isIntersecting : bool)
| Deliver
| Benefits (e : B.event).

Definition step cw rm (e : event) (st : state) : state :=
  match e with
  | Intersection t b =>
      match observer st with
      | Some targets =>
          if in_dec section_eq_dec t targets then
            mkState (observer st) (queued st ++ [(t, b)]) (revealLog st)
              (benefitsSlider st) (benefitsInitCalls st)
          else st
      | None => st
      end
  | Deliver =>
      match observer st with
      | Some _ =>
          callback cw rm (queued st)
            (mkState (observer st) [] (revealLog st) (benefitsSlider st)
               (benefitsInitCalls st))
      | None => st
      end
  | Benefits be =>
      mkState (observer st) (queued st) (revealLog st)
        (option_map (B.dispatch cw rm be) (benefitsSlider st)) (benefitsInitCalls st)
  end.

Definition run cw rm (es : list event) (st : state) : state :=
  fold_left (fun s e => step cw rm e s) es st.

End Page.

(** ** Hero slider autoplay and ARIA state *)
Module HeroPlayer.

(** The two glyphs of the pause button: U+25B6 and U+23F8. *)
Inductive icon := PlayGlyph | PauseGlyph.

(** The hero slider object with the fields its autoplay methods use.
    [liveIntervals] are the ids of the intervals created by [setInterval]
    and not yet cleared; browsers hand out positive ids, so an id is truthy. *)
Record state := mkState {
  slider : HeroSlider.state;
  isPaused : bool;
  autoplayInterval : option nat;
  liveIntervals : list nat;
  nextTimerId : nat;
  hasPauseBtn : bool;
  ariaLive : string;                (* container aria-live *)
  pauseLabel : option string;       (* pauseBtn aria-label *)
  pauseIcon : option icon           (* pauseBtn span textContent *)
}.

Definition with_slider (sl : HeroSlider.state) (s : state) : state :=
  mkState sl (isPaused s) (autoplayInterval s) (liveIntervals s) (nextTimerId s)
    (hasPauseBtn s) (ariaLive s) (pauseLabel s) (pauseIcon s).

Definition updateAriaLabels (s : state) : state :=
  mkState (slider s) (isPaused s) (autoplayInterval s) (liveIntervals s) (nextTimerId s)
    (hasPauseBtn s)
    (if isPaused s then "polite"%string else "off"%string)
    (if hasPauseBtn s
     then Some (if isPaused s then "Play slideshow"%string else "Pause slideshow"%string)
     else pauseLabel s)
    (if hasPauseBtn s
     then Some (if isPaused s then PlayGlyph else PauseGlyph)
     else pauseIcon s).

Definition stopAutoplay (s : state) : state :=
  match autoplayInterval s with
  | Some i =>
      mkState (slider s) (isPaused s) None (remove Nat.eq_dec i (liveIntervals s))
        (nextTimerId s) (hasPauseBtn s) (ariaLive s) (pauseLabel s) (pauseIcon s)
  | None => s
  end.

(** [startAutoplay]: the new interval calls [goToNextSlide] every 5000 ms
    (the [Tick] event below). *)
Definition startAutoplay (reduced : bool) (s : state) : state :=
  if reduced then s else
  let s1 := stopAutoplay s in
  let i := nextTimerId s1 in
  mkState (slider s1) (isPaused s1) (Some i) (i :: liveIntervals s1) (S i)
    (hasPauseBtn s1) (ariaLive s1) (pauseLabel s1) (pauseIcon s1).

Definition pauseAutoplay (s : state) : state := stopAutoplay s.

Definition toggleAutoplay (reduced : bool) (s : state) : state :=
  let s1 := mkState (slider s) (negb (isPaused s)) (autoplayInterval s) (liveIntervals s)
              (nextTimerId s) (hasPauseBtn s) (ariaLive s) (pauseLabel s) (pauseIcon s) in
  let s2 := if isPaused s1 then stopAutoplay s1 else startAutoplay reduced s1 in
  updateAriaLabels s2.

(** [goToNextSlide]/[goToPrevSlide] end in [updateSlider], which ends in
    [updateAriaLabels]. *)
Definition goToNextSlide (s : state) : state :=
  updateAriaLabels (with_slider (HeroSlider.goToNextSlide (slider s)) s).
Definition goToPrevSlide (s : state) : state :=
  updateAriaLabels (with_slider (HeroSlider.goToPrevSlide (slider s)) s).

Definition handleSwipe (startX endX : Z) (s : state) : state :=
  let diff := startX - endX in
  let threshold := 50 in
  if js_abs diff >? threshold then
    if diff >? 0 then goToNextSlide s else goToPrevSlide s
  else s.

(** The constructor followed by [init]; ids of [setInterval] start at 1. *)
Definition create (reduced : bool) (n : Z) (pauseBtn : bool) : state :=
  let s0 := mkState (HeroSlider.create n) false None [] 1%nat pauseBtn
              ""%string None None in
  if n =? 0 then s0 else
  let s1 := if negb reduced then startAutoplay reduced s0 else s0 in
  updateAriaLabels s1.

Inductive event :=
| ClickPrev | ClickNext | ClickPause
| KeyLeft | KeyRight | KeySpace
| MouseEnter | MouseLeave
| TouchSwipe (startX endX : Z)
| Tick (id : nat).                  (* interval [id] fires *)

Definition dispatch (reduced : bool) (e : event) (s : state) : state :=
  if HeroSlider.slideCount (slider s) =? 0 then s else
  match e with
  | ClickPrev | KeyLeft => goToPrevSlide s
  | ClickNext | KeyRight => goToNextSlide s
  | ClickPause | KeySpace => toggleAutoplay reduced s
  | MouseEnter => pauseAutoplay s
  | MouseLeave => if negb (isPaused s) then startAutoplay reduced s else s
  | TouchSwipe a b => handleSwipe a b s
  | Tick i => if in_dec Nat.eq_dec i (liveIntervals s) then goToNextSlide s else s
  end.

Definition run (reduced : bool) (es : list event) (s : state) : state :=
  fold_left (fun st e => dispatch reduced e st) es s.

End HeroPlayer.

(** ** School logos strip (class SchoolLogosSlider, one container) *)
Module SchoolLogosSlider.

(** [maxScroll] is [scrollWidth - clientWidth]: assigning [scrollLeft]
    clamps to [[0, maxScroll]].  With [scroll-behavior: smooth] the value
    is the position the container scrolls to. *)
Record state := mkState {
  maxScroll : Z;
  scrollLeft : Z;
  isDown : bool;
  startX : Z;
  scrollLeft0 : Z;                  (* the closure variable [scrollLeft] *)
  dragging : bool;                  (* class is-dragging *)
  paused : bool                     (* track animationPlayState = 'paused' *)
}.

Definition set_scroll (v : Z) (s : state) : state :=
  mkState (maxScroll s) (Z.max 0 (Z.min (maxScroll s) v)) (isDown s) (startX s)
    (scrollLeft0 s) (dragging s) (paused s).

Definition set_paused (b : bool) (s : state) : state :=
  mkState (maxScroll s) (scrollLeft s) (isDown s) (startX s) (scrollLeft0 s) (dragging s) b.

Definition pointerDown (x : Z) (s : state) : state :=
  mkState (maxScroll s) (scrollLeft s) true x (scrollLeft s) true true.

Definition pointerMove (x : Z) (s : state) : state :=
  if negb (isDown s) then s else
  let walk := startX s - x in
  set_scroll (scrollLeft0 s + walk) s.

Definition pointerUp (s : state) : state :=
  mkState (maxScroll s) (scrollLeft s) false (startX s) (scrollLeft0 s) false false.

Definition onWheel (deltaX deltaY : Z) (s : state) : state :=
  let delta := if js_abs deltaX >? js_abs deltaY then deltaX else deltaY in
  set_scroll (scrollLeft s + delta) s.

Inductive event :=
| MouseDown (x : Z) | MouseMove (x : Z) | MouseUp | MouseLeave | MouseEnter
| TouchStart (x : Z) | TouchMove (x : Z) | TouchEnd
| Wheel (deltaX deltaY : Z)
| KeyLeft | KeyRight.

(** Listeners of one event type run in the order [setupContainer] added
    them. *)
Definition dispatch (e : event) (s : state) : state :=
  match e with
  | MouseDown x => pointerDown x s
  | MouseMove x => pointerMove x s
  | MouseUp => pointerUp s
  | MouseLeave => set_paused false (pointerUp s)
  | MouseEnter => set_paused true s
  | TouchStart x => set_paused true (pointerDown x s)
  | TouchMove x => pointerMove x s
  | TouchEnd => set_paused false (pointerUp s)
  | Wheel dx dy => onWheel dx dy s
  | KeyLeft => set_scroll (scrollLeft s - 200) s
  | KeyRight => set_scroll (scrollLeft s + 200) s
  end.

Definition run (es : list event) (s : state) : state :=
  fold_left (fun st e => dispatch e st) es s.

(** [setupContainer] on a container already scrolled to [sl]. *)
Definition create (mx sl : Z) : state := mkState mx sl false 0 0 false false.

End SchoolLogosSlider.

(** ** debounce(func, wait) *)
Module Debounce.

Section Debounce.
Variable A : Type.
Variable wait : Z.

(** The pending [setTimeout] of the closure: due time and arguments. *)
Definition pending := option (Z * A).

(** Timers due by time [t] run before anything that happens at [t]. *)
Definition fire_due (t : Z) (p : pending) : list A * pending :=
  match p with
  | Some (due, a) => if due <=? t then ([a], None) else ([], p)
  | None => ([], None)
  end.

(** [executedFunction(...args)] called at time [t]: clear the pending
    timeout and set a new one for [t + wait]. *)
Definition call (t : Z) (a : A) (p : pending) : list A * pending :=
  let '(fired, _) := fire_due t p in
  (fired, Some (t + wait, a)).

(** Calls at the given times, then time runs on to [tend]; the result is
    the list of arguments [func] ran with. *)
Fixpoint run_calls (calls : list (Z * A)) (p : pending) (tend : Z) : list A :=
  match calls with
  | [] => fst (fire_due tend p)
  | (t, a) :: rest =>
      let '(fired, p') := call t a p in
      fired ++ run_calls rest p' tend
  end.

End Debounce.

Arguments fire_due {A}.
Arguments call {A}.
Arguments run_calls {A}.

End Debounce.

(** ** Header at-top state (the block at the end of init) *)
Module Header.

Record state := mkState {
  atTopClass : bool;                (* header--at-top *)
  animated : bool;                  (* is-animated *)
  wasAtTop : bool;
  animTimer : option nat;           (* headerEl._headerAnimTimer, pending *)
  nextTimerId : nat;
  rafPending : bool                 (* the requestAnimationFrame of the load *)
}.

Definition ANIM_TIMEOUT : Z := 700.

(** Add [is-animated] and (re)start its [ANIM_TIMEOUT] removal timer;
    [clearTimeout] drops the previous one. *)
Definition animate (s : state) : state :=
  mkState (atTopClass s) true (wasAtTop s) (Some (nextTimerId s)) (S (nextTimerId s))
    (rafPending s).

Definition updateHeaderAtTop (reduced : bool) (scrollY : Z) (s : state) : state :=
  let atTop := scrollY =? 0 in
  let s1 := mkState atTop (animated s) (wasAtTop s) (animTimer s) (nextTimerId s)
              (rafPending s) in
  let s2 := if negb reduced && atTop && negb (wasAtTop s1) then animate s1 else s1 in
  mkState (atTopClass s2) (animated s2) atTop (animTimer s2) (nextTimerId s2)
    (rafPending s2).

(** The page loaded at [scrollY0]: the initial update, and the entrance
    animation frame requested when motion is allowed and the page is at
    the top. *)
Definition load (reduced : bool) (scrollY0 : Z) : state :=
  let wasAtTop0 := scrollY0 =? 0 in
  let s := updateHeaderAtTop reduced scrollY0
             (mkState false false wasAtTop0 None 1%nat false) in
  mkState (atTopClass s) (animated s) (wasAtTop s) (animTimer s) (nextTimerId s)
    (negb reduced && wasAtTop s).

Definition timer_is (i : nat) (o : option nat) : bool :=
  match o with Some j => Nat.eqb i j | None => false end.

Inductive event :=
| Update (scrollY : Z)              (* debounced scroll, or pageshow *)
| AnimationFrame
| TimerFires (id : nat).            (* the removal timer [id] runs *)

Definition dispatch (reduced : bool) (e : event) (s : state) : state :=
  match e with
  | Update y => updateHeaderAtTop reduced y s
  | AnimationFrame =>
      if rafPending s then
        let s1 := animate s in
        mkState (atTopClass s1) (animated s1) (wasAtTop s1) (animTimer s1)
          (nextTimerId s1) false
      else s
  | TimerFires i =>
      if timer_is i (animTimer s)
      then mkState (atTopClass s) false (wasAtTop s) None (nextTimerId s) (rafPending s)
      else s
  end.

Definition run (reduced : bool) (es : list event) (s : state) : state :=
  fold_left (fun st e => dispatch reduced e st) es s.

End Header.

(** * Properties *)

(** ** Helper lemmas on the sliders *)

Module HeroFacts.
Import HeroSlider.

Lemma currentSlide_next (s : state) :
  currentSlide (goToNextSlide s) = js_rem (currentSlide s + 1) (slideCount s).
Proof. reflexivity. Qed.

Lemma currentSlide_prev (s : state) :
  currentSlide (goToPrevSlide s) = js_rem (currentSlide s - 1 + slideCount s) (slideCount s).
Proof. reflexivity. Qed.

Lemma slideCount_next (s : state) : slideCount (goToNextSlide s) = slideCount s.
Proof. reflexivity. Qed.

Lemma slideCount_prev (s : state) : slideCount (goToPrevSlide s) = slideCount s.
Proof. reflexivity. Qed.

Lemma hero_swipe_small a b s : js_abs (a - b) <= 50 -> handleSwipe a b s = s.
Proof.
  intros H. unfold handleSwipe. destruct (Z.gtb_spec (js_abs (a - b)) 50); [lia | reflexivity].
Qed.

Lemma hero_swipe_left a b s : a - b > 50 -> handleSwipe a b s = goToNextSlide s.
Proof.
  intros H. unfold handleSwipe, js_abs.
  destruct (Z.gtb_spec (Z.abs (a - b)) 50); [| lia].
  destruct (Z.gtb_spec (a - b) 0); [reflexivity | lia].
Qed.

Lemma hero_swipe_right a b s : a - b < -50 -> handleSwipe a b s = goToPrevSlide s.
Proof.
  intros H. unfold handleSwipe, js_abs.
  destruct (Z.gtb_spec (Z.abs (a - b)) 50); [| lia].
  destruct (Z.gtb_spec (a - b) 0); [lia | reflexivity].
Qed.

(** The index invariant of the hero slider. *)
Definition inv (s : state) : Prop :=
  0 <= slideCount s /\ 0 <= currentSlide s <= js_max 0 (slideCount s - 1).

Lemma rem_in_range x n : 0 <= x -> 0 < n -> 0 <= js_rem x n <= js_max 0 (n - 1).
Proof.
  intros Hx Hn. unfold js_rem, js_max.
  pose proof (Z.rem_bound_pos x n Hx Hn). lia.
Qed.

Lemma hero_next_inv s : inv s -> 0 < slideCount s -> inv (goToNextSlide s).
Proof.
  intros [Hn Hc] Hpos. unfold inv.
  rewrite currentSlide_next, slideCount_next. split; [lia|].
  apply rem_in_range; lia.
Qed.

Lemma hero_prev_inv s : inv s -> 0 < slideCount s -> inv (goToPrevSlide s).
Proof.
  intros [Hn Hc] Hpos. unfold inv.
  rewrite currentSlide_prev, slideCount_prev. split; [lia|].
  apply rem_in_range; lia.
Qed.

Lemma hero_dispatch_inv e s : inv s -> inv (dispatch e s).
Proof.
  intros H. unfold dispatch.
  destruct (Z.eqb_spec (slideCount s) 0) as [E|E]; [exact H|].
  assert (Hpos : 0 < slideCount s) by (destruct H; lia).
  destruct e as [| | a b].
  - apply hero_next_inv; assumption.
  - apply hero_prev_inv; assumption.
  - unfold handleSwipe.
    destruct (js_abs (a - b) >? 50); [| exact H].
    destruct (a - b >? 0); [apply hero_next_inv | apply hero_prev_inv]; assumption.
Qed.

Lemma hero_run_inv es s : inv s -> inv (run es s).
Proof.
  revert s. induction es as [|e es IH]; intros s H; simpl; [exact H|].
  apply IH, hero_dispatch_inv, H.
Qed.

Lemma dispatch_slideCount e s : slideCount (dispatch e s) = slideCount s.
Proof.
  unfold dispatch. destruct (slideCount s =? 0); [reflexivity|].
  destruct e as [| | a b]; [reflexivity | reflexivity |].
  unfold handleSwipe.
  destruct (js_abs (a - b) >? 50); [| reflexivity].
  destruct (a - b >? 0); reflexivity.
Qed.

Lemma run_slideCount es s : slideCount (run es s) = slideCount s.
Proof.
  revert s. induction es as [|e es IH]; intros s; simpl; [reflexivity|].
  rewrite IH. apply dispatch_slideCount.
Qed.

End HeroFacts.

Module ChooseFacts.
Import ChooseSchoolSlider.

Lemma choose_updateSlider_index cw rm s : currentIndex (updateSlider cw rm s) = currentIndex s.
Proof. reflexivity. Qed.

Lemma choose_next_at_max cw rm s : currentIndex s = maxIndex s -> goToNext cw rm s = s.
Proof. intros H. unfold goToNext. rewrite H, Z.ltb_irrefl. reflexivity. Qed.

Lemma choose_prev_at_zero cw rm s : currentIndex s = 0 -> goToPrev cw rm s = s.
Proof. intros H. unfold goToPrev. rewrite H. reflexivity. Qed.

Lemma choose_next_index cw rm s :
  currentIndex s < maxIndex s -> currentIndex (goToNext cw rm s) = currentIndex s + 1.
Proof.
  intros H. unfold goToNext. destruct (Z.ltb_spec (currentIndex s) (maxIndex s)); [reflexivity | lia].
Qed.

Lemma choose_prev_index cw rm s :
  0 < currentIndex s -> currentIndex (goToPrev cw rm s) = currentIndex s - 1.
Proof.
  intros H. unfold goToPrev. destruct (Z.gtb_spec (currentIndex s) 0); [reflexivity | lia].
Qed.

Lemma choose_swipe_small cw rm a b s : js_abs (a - b) <= 50 -> handleSwipe cw rm a b s = s.
Proof.
  intros H. unfold handleSwipe. destruct (Z.gtb_spec (js_abs (a - b)) 50); [lia | reflexivity].
Qed.

Lemma choose_swipe_left cw rm a b s : a - b > 50 -> handleSwipe cw rm a b s = goToNext cw rm s.
Proof.
  intros H. unfold handleSwipe, js_abs.
  destruct (Z.gtb_spec (Z.abs (a - b)) 50); [| lia].
  destruct (Z.gtb_spec (a - b) 0); [reflexivity | lia].
Qed.

Lemma choose_swipe_right cw rm a b s : a - b < -50 -> handleSwipe cw rm a b s = goToPrev cw rm s.
Proof.
  intros H. unfold handleSwipe, js_abs.
  destruct (Z.gtb_spec (Z.abs (a - b)) 50); [| lia].
  destruct (Z.gtb_spec (a - b) 0); [lia | reflexivity].
Qed.

(** The index invariant: [maxIndex] is the formula of the source and the
    index lies in [[0, maxIndex]]. *)
Definition inv (s : state) : Prop :=
  maxIndex s = js_max 0 (cardCount s - cardsPerView s) /\
  0 <= currentIndex s <= maxIndex s.

(** [goToIndex] is only ever called with a dot position. *)
Definition goto_nonneg (e : event) : Prop :=
  match e with GoTo i => 0 <= i | _ => True end.

Lemma set_index_inv i s : inv s -> 0 <= i <= maxIndex s -> inv (set_index i s).
Proof. intros [Hm _] Hi. split; simpl; assumption. Qed.

Lemma updateSlider_inv cw rm s : inv s -> inv (updateSlider cw rm s).
Proof. intros H. exact H. Qed.

Lemma choose_next_inv cw rm s : inv s -> inv (goToNext cw rm s).
Proof.
  intros H. unfold goToNext.
  destruct (Z.ltb_spec (currentIndex s) (maxIndex s)); [| exact H].
  apply updateSlider_inv, set_index_inv; [exact H | destruct H; lia].
Qed.

Lemma choose_prev_inv cw rm s : inv s -> inv (goToPrev cw rm s).
Proof.
  intros H. unfold goToPrev.
  destruct (Z.gtb_spec (currentIndex s) 0); [| exact H].
  apply updateSlider_inv, set_index_inv; [exact H | destruct H; lia].
Qed.

Lemma choose_dispatch_inv cw rm e s : goto_nonneg e -> inv s -> inv (dispatch cw rm e s).
Proof.
  intros He H. unfold dispatch.
  destruct (cardCount s =? 0); [exact H|].
  destruct e as [| | i | a b | w]; simpl in He.
  - apply choose_next_inv, H.
  - apply choose_prev_inv, H.
  - unfold goToIndex, js_min. apply updateSlider_inv, set_index_inv; [exact H | destruct H; lia].
  - unfold handleSwipe.
    destruct (js_abs (a - b) >? 50); [| exact H].
    destruct (a - b >? 0); [apply choose_next_inv | apply choose_prev_inv]; exact H.
  - unfold onResize, js_min, js_max. split; simpl; [reflexivity | destruct H; lia].
Qed.

Lemma choose_run_inv cw rm es s : Forall goto_nonneg es -> inv s -> inv (run cw rm es s).
Proof.
  revert s. induction es as [|e es IH]; intros s Hes H; simpl; [exact H|].
  inversion Hes; subst. apply IH; [assumption|]. apply choose_dispatch_inv; assumption.
Qed.

Lemma init_create_inv cw rm width n ndots : inv (init cw rm (create width n ndots)).
Proof.
  unfold init. destruct (cardCount (create width n ndots) =? 0);
    [| apply updateSlider_inv];
    (split; [reflexivity | simpl; unfold js_max; lia]).
Qed.

End ChooseFacts.

Module BenefitsFacts.
Import ExhibitionBenefitsSlider.

Lemma benefits_updateSlider_index cw rm s : currentIndex (updateSlider cw rm s) = currentIndex s.
Proof. reflexivity. Qed.

Lemma benefits_next_at_max cw rm s : currentIndex s = maxIndex s -> goToNext cw rm s = s.
Proof. intros H. unfold goToNext. rewrite H, Z.ltb_irrefl. reflexivity. Qed.

Lemma benefits_prev_at_zero cw rm s : currentIndex s = 0 -> goToPrev cw rm s = s.
Proof. intros H. unfold goToPrev. rewrite H. reflexivity. Qed.

Lemma benefits_next_index cw rm s :
  currentIndex s < maxIndex s -> currentIndex (goToNext cw rm s) = currentIndex s + 1.
Proof.
  intros H. unfold goToNext. destruct (Z.ltb_spec (currentIndex s) (maxIndex s)); [reflexivity | lia].
Qed.

Lemma benefits_prev_index cw rm s :
  0 < currentIndex s -> currentIndex (goToPrev cw rm s) = currentIndex s - 1.
Proof.
  intros H. unfold goToPrev. destruct (Z.gtb_spec (currentIndex s) 0); [reflexivity | lia].
Qed.

Lemma benefits_swipe_small cw rm a b s : js_abs (a - b) <= 50 -> handleSwipe cw rm a b s = s.
Proof.
  intros H. unfold handleSwipe. destruct (Z.gtb_spec (js_abs (a - b)) 50); [lia | reflexivity].
Qed.

Lemma benefits_swipe_left cw rm a b s : a - b > 50 -> handleSwipe cw rm a b s = goToNext cw rm s.
Proof.
  intros H. unfold handleSwipe, js_abs.
  destruct (Z.gtb_spec (Z.abs (a - b)) 50); [| lia].
  destruct (Z.gtb_spec (a - b) 0); [reflexivity | lia].
Qed.

Lemma benefits_swipe_right cw rm a b s : a - b < -50 -> handleSwipe cw rm a b s = goToPrev cw rm s.
Proof.
  intros H. unfold handleSwipe, js_abs.
  destruct (Z.gtb_spec (Z.abs (a - b)) 50); [| lia].
  destruct (Z.gtb_spec (a - b) 0); [lia | reflexivity].
Qed.

Definition inv (s : state) : Prop :=
  maxIndex s = js_max 0 (cardCount s - cardsPerView s) /\
  0 <= currentIndex s <= maxIndex s.

Lemma benefits_next_inv cw rm s : inv s -> inv (goToNext cw rm s).
Proof.
  intros H. unfold goToNext.
  destruct (Z.ltb_spec (currentIndex s) (maxIndex s)); [| exact H].
  destruct H as [Hm Hi]. split; simpl; [exact Hm | lia].
Qed.

Lemma benefits_prev_inv cw rm s : inv s -> inv (goToPrev cw rm s).
Proof.
  intros H. unfold goToPrev.
  destruct (Z.gtb_spec (currentIndex s) 0); [| exact H].
  destruct H as [Hm Hi]. split; simpl; [exact Hm | lia].
Qed.

Lemma swipe_inv cw rm a b s : inv s -> inv (handleSwipe cw rm a b s).
Proof.
  intros H. unfold handleSwipe.
  destruct (js_abs (a - b) >? 50); [| exact H].
  destruct (a - b >? 0); [apply benefits_next_inv | apply benefits_prev_inv]; exact H.
Qed.

Lemma pointerUp_inv cw rm s : inv s -> inv (onPointerUp cw rm s).
Proof.
  intros [Hm Hi]. unfold onPointerUp.
  destruct (negb (isDragging s)); [split; assumption|].
  unfold js_max, js_min. split; simpl; [exact Hm | lia].
Qed.

Lemma benefits_dispatch_inv cw rm e s : inv s -> inv (dispatch cw rm e s).
Proof.
  intros H. unfold dispatch.
  destruct (negb (activated s)); [exact H|].
  destruct e as [| | | | x | x | x | x | x | | dx dy | w]; cbn beta iota.
  - apply benefits_next_inv, H.
  - apply benefits_prev_inv, H.
  - apply benefits_prev_inv, H.
  - apply benefits_next_inv, H.
  - exact H.
  - unfold onPointerMove. destruct (negb (isDragging s)); exact H.
  - apply pointerUp_inv, swipe_inv, H.
  - exact H.
  - unfold onPointerMove. destruct (negb (isDragging s)); exact H.
  - apply pointerUp_inv, H.
  - unfold onWheel.
    destruct (js_abs dy >? js_abs dx); [| exact H].
    destruct (dy >? 5); [apply benefits_next_inv, H|].
    destruct (dy <? -5); [apply benefits_prev_inv, H | exact H].
  - destruct H as [Hm Hi].
    unfold onResize, js_min, js_max. split; simpl; [reflexivity | lia].
Qed.

Lemma benefits_run_inv cw rm es s : inv s -> inv (run cw rm es s).
Proof.
  revert s. induction es as [|e es IH]; intros s H; simpl; [exact H|].
  apply IH, benefits_dispatch_inv, H.
Qed.

Lemma init_inv cw rm s : inv s -> inv (init cw rm s).
Proof.
  intros H. unfold init.
  destruct (activated s); [exact H|].
  destruct (negb (hasTrack s) || (cardCount s =? 0)); exact H.
Qed.

Lemma create_inv width n t : inv (create width n t).
Proof. split; [reflexivity | simpl; unfold js_max; lia]. Qed.

(** Nothing but [init] sets [_activated]: the listeners are absent before. *)
Lemma dispatch_inactive cw rm e s : activated s = false -> dispatch cw rm e s = s.
Proof. intros H. unfold dispatch. rewrite H. reflexivity. Qed.

Lemma run_inactive cw rm es s : activated s = false -> run cw rm es s = s.
Proof.
  revert s. induction es as [|e es IH]; intros s H; simpl; [reflexivity|].
  rewrite dispatch_inactive by exact H. apply IH, H.
Qed.

End BenefitsFacts.

(** ** Carousel navigation *)

(** C1 (amended).  In the two clamped carousels (choose-school and
    benefits) [goToNext] at [currentIndex = maxIndex] and [goToPrev] at
    [currentIndex = 0] return the state unchanged (no render either).  The
    hero slider does not clamp: [goToNextSlide] on the last slide goes to
    slide 0 and [goToPrevSlide] on slide 0 goes to the last slide. *)
Theorem carousel_next_prev_at_bounds :
  (forall cw rm s, ChooseSchoolSlider.currentIndex s = ChooseSchoolSlider.maxIndex s ->
     ChooseSchoolSlider.goToNext cw rm s = s) /\
  (forall cw rm s, ChooseSchoolSlider.currentIndex s = 0 ->
     ChooseSchoolSlider.goToPrev cw rm s = s) /\
  (forall cw rm s, ExhibitionBenefitsSlider.currentIndex s = ExhibitionBenefitsSlider.maxIndex s ->
     ExhibitionBenefitsSlider.goToNext cw rm s = s) /\
  (forall cw rm s, ExhibitionBenefitsSlider.currentIndex s = 0 ->
     ExhibitionBenefitsSlider.goToPrev cw rm s = s) /\
  (forall s, 0 < HeroSlider.slideCount s ->
     HeroSlider.currentSlide s = HeroSlider.slideCount s - 1 ->
     HeroSlider.currentSlide (HeroSlider.goToNextSlide s) = 0) /\
  (forall s, 0 < HeroSlider.slideCount s -> HeroSlider.currentSlide s = 0 ->
     HeroSlider.currentSlide (HeroSlider.goToPrevSlide s) = HeroSlider.slideCount s - 1).
Proof.
  split; [exact ChooseFacts.choose_next_at_max|].
  split; [exact ChooseFacts.choose_prev_at_zero|].
  split; [exact BenefitsFacts.benefits_next_at_max|].
  split; [exact BenefitsFacts.benefits_prev_at_zero|].
  split.
  - intros s Hn Hc. rewrite HeroFacts.currentSlide_next, Hc. unfold js_rem.
    replace (HeroSlider.slideCount s - 1 + 1) with (HeroSlider.slideCount s) by lia.
    apply Z.rem_same. lia.
  - intros s Hn Hc. rewrite HeroFacts.currentSlide_prev, Hc. unfold js_rem.
    replace (0 - 1 + HeroSlider.slideCount s) with (HeroSlider.slideCount s - 1) by lia.
    apply Z.rem_small. lia.
Qed.

Lemma carousel_next_prev_at_bounds_witness :
  let c := ChooseSchoolSlider.set_index 2 (ChooseSchoolSlider.create 1200 6 6) in
  let b := ExhibitionBenefitsSlider.with_index 2 (ExhibitionBenefitsSlider.create 1200 6 true) in
  ChooseSchoolSlider.goToNext (Some 300) false c = c /\
  ChooseSchoolSlider.goToPrev (Some 300) false (ChooseSchoolSlider.create 1200 6 6)
    = ChooseSchoolSlider.create 1200 6 6 /\
  ExhibitionBenefitsSlider.goToNext (Some 300) true b = b /\
  ExhibitionBenefitsSlider.goToPrev (Some 300) true (ExhibitionBenefitsSlider.create 1200 6 true)
    = ExhibitionBenefitsSlider.create 1200 6 true /\
  HeroSlider.currentSlide (HeroSlider.goToNextSlide (HeroSlider.mkState 2 3 [false; false; true])) = 0 /\
  HeroSlider.currentSlide (HeroSlider.goToPrevSlide (HeroSlider.create 3)) = 2.
Proof.
  destruct carousel_next_prev_at_bounds as (H1 & H2 & H3 & H4 & H5 & H6).
  cbv zeta.
  split; [apply H1; reflexivity|].
  split; [apply H2; reflexivity|].
  split; [apply H3; reflexivity|].
  split; [apply H4; reflexivity|].
  split; [apply H5; simpl; lia|].
  apply (H6 (HeroSlider.create 3)); simpl; lia.
Defined.

(** C1 counterexample: the hero slider on its first slide (index 0 of 3)
    does move on [goToPrevSlide]: it wraps to the last slide. *)
Lemma hero_prev_at_first_slide_wraps :
  HeroSlider.currentSlide (HeroSlider.goToPrevSlide (HeroSlider.create 3)) = 2 /\
  HeroSlider.goToPrevSlide (HeroSlider.create 3) <> HeroSlider.create 3.
Proof.
  split; [reflexivity|].
  intros H. apply (f_equal HeroSlider.currentSlide) in H. discriminate H.
Qed.

(** C2 (amended).  From the initial state, every sequence of events keeps
    the index in range: for the choose-school slider (next, prev, swipe,
    resize and [goToIndex i] with [i >= 0], the dot positions it is called
    with) and the benefits slider (buttons, keys, swipe, drag, wheel,
    resize), [maxIndex = max(0, cardCount - cardsPerView)] and
    [0 <= currentIndex <= maxIndex]; the hero slider keeps
    [0 <= currentSlide <= max(0, slideCount - 1)]. *)
Theorem carousel_index_within_bounds :
  (forall n es, 0 <= n ->
     let s := HeroSlider.run es (HeroSlider.create n) in
     0 <= HeroSlider.currentSlide s <= js_max 0 (n - 1)) /\
  (forall width n ndots cw rm es,
     Forall ChooseFacts.goto_nonneg es ->
     let s := ChooseSchoolSlider.run cw rm es
                (ChooseSchoolSlider.init cw rm (ChooseSchoolSlider.create width n ndots)) in
     ChooseSchoolSlider.maxIndex s
       = js_max 0 (ChooseSchoolSlider.cardCount s - ChooseSchoolSlider.cardsPerView s) /\
     0 <= ChooseSchoolSlider.currentIndex s <= ChooseSchoolSlider.maxIndex s) /\
  (forall width n t cw rm es1 es2,
     let s := ExhibitionBenefitsSlider.run cw rm es2
                (ExhibitionBenefitsSlider.init cw rm
                   (ExhibitionBenefitsSlider.run cw rm es1
                      (ExhibitionBenefitsSlider.create width n t))) in
     ExhibitionBenefitsSlider.maxIndex s
       = js_max 0 (ExhibitionBenefitsSlider.cardCount s - ExhibitionBenefitsSlider.cardsPerView s) /\
     0 <= ExhibitionBenefitsSlider.currentIndex s <= ExhibitionBenefitsSlider.maxIndex s).
Proof.
  split; [|split].
  - intros n es Hn. cbv zeta.
    assert (H : HeroFacts.inv (HeroSlider.run es (HeroSlider.create n))).
    { apply HeroFacts.hero_run_inv. split; simpl; unfold js_max; lia. }
    destruct H as [_ H]. rewrite HeroFacts.run_slideCount in H. exact H.
  - intros width n ndots cw rm es Hes. cbv zeta.
    apply ChooseFacts.choose_run_inv; [exact Hes | apply ChooseFacts.init_create_inv].
  - intros width n t cw rm es1 es2. cbv zeta.
    apply BenefitsFacts.benefits_run_inv, BenefitsFacts.init_inv, BenefitsFacts.benefits_run_inv,
          BenefitsFacts.create_inv.
Qed.

Lemma carousel_index_within_bounds_witness :
  0 <= 3 /\ Forall ChooseFacts.goto_nonneg [ChooseSchoolSlider.GoTo 5; ChooseSchoolSlider.Next] /\
  0 <= HeroSlider.currentSlide (HeroSlider.run [HeroSlider.Prev] (HeroSlider.create 3)) <= js_max 0 (3 - 1) /\
  0 <= ChooseSchoolSlider.currentIndex
         (ChooseSchoolSlider.run (Some 300) false [ChooseSchoolSlider.GoTo 5; ChooseSchoolSlider.Next]
            (ChooseSchoolSlider.init (Some 300) false (ChooseSchoolSlider.create 1200 6 6))).
Proof.
  destruct carousel_index_within_bounds as (H1 & H2 & H3).
  assert (F : Forall ChooseFacts.goto_nonneg [ChooseSchoolSlider.GoTo 5; ChooseSchoolSlider.Next])
    by (repeat constructor; simpl; lia).
  split; [lia|]. split; [exact F|]. split.
  - apply (H1 3 [HeroSlider.Prev]). lia.
  - apply (H2 1200 6 6%nat (Some 300) false _ F).
Defined.

(** C2 counterexample: [goToIndex] clamps from above only, so
    [goToIndex(-1)] leaves the index at [-1]. *)
Lemma choose_goto_negative_index :
  ChooseSchoolSlider.currentIndex
    (ChooseSchoolSlider.run (Some 300) false [ChooseSchoolSlider.GoTo (-1)]
       (ChooseSchoolSlider.init (Some 300) false (ChooseSchoolSlider.create 1200 6 6))) = -1.
Proof. reflexivity. Qed.

(** ** Swipe handling *)

(** C3 (amended).  In each carousel's [handleSwipe(startX, endX)], with
    [diff = startX - endX]: [|diff| <= 50] leaves the slider unchanged,
    [diff > 50] is [next()] and [diff < -50] is [prev()].  Away from the
    bounds this moves the index by exactly one in the swipe's direction;
    at the bounds the clamped sliders stay put (C1) and the hero slider
    wraps modulo its slide count. *)
Theorem swipe_threshold_and_direction :
  (* hero slider *)
  (forall a b s, js_abs (a - b) <= 50 -> HeroSlider.handleSwipe a b s = s) /\
  (forall a b s, a - b > 50 ->
     HeroSlider.currentSlide (HeroSlider.handleSwipe a b s)
     = js_rem (HeroSlider.currentSlide s + 1) (HeroSlider.slideCount s)) /\
  (forall a b s, a - b < -50 ->
     HeroSlider.currentSlide (HeroSlider.handleSwipe a b s)
     = js_rem (HeroSlider.currentSlide s - 1 + HeroSlider.slideCount s) (HeroSlider.slideCount s)) /\
  (* choose-school slider *)
  (forall cw rm a b s, js_abs (a - b) <= 50 -> ChooseSchoolSlider.handleSwipe cw rm a b s = s) /\
  (forall cw rm a b s, a - b > 50 ->
     ChooseSchoolSlider.handleSwipe cw rm a b s = ChooseSchoolSlider.goToNext cw rm s /\
     (ChooseSchoolSlider.currentIndex s < ChooseSchoolSlider.maxIndex s ->
      ChooseSchoolSlider.currentIndex (ChooseSchoolSlider.handleSwipe cw rm a b s)
      = ChooseSchoolSlider.currentIndex s + 1)) /\
  (forall cw rm a b s, a - b < -50 ->
     ChooseSchoolSlider.handleSwipe cw rm a b s = ChooseSchoolSlider.goToPrev cw rm s /\
     (0 < ChooseSchoolSlider.currentIndex s ->
      ChooseSchoolSlider.currentIndex (ChooseSchoolSlider.handleSwipe cw rm a b s)
      = ChooseSchoolSlider.currentIndex s - 1)) /\
  (* benefits slider *)
  (forall cw rm a b s, js_abs (a - b) <= 50 -> ExhibitionBenefitsSlider.handleSwipe cw rm a b s = s) /\
  (forall cw rm a b s, a - b > 50 ->
     ExhibitionBenefitsSlider.handleSwipe cw rm a b s = ExhibitionBenefitsSlider.goToNext cw rm s /\
     (ExhibitionBenefitsSlider.currentIndex s < ExhibitionBenefitsSlider.maxIndex s ->
      ExhibitionBenefitsSlider.currentIndex (ExhibitionBenefitsSlider.handleSwipe cw rm a b s)
      = ExhibitionBenefitsSlider.currentIndex s + 1)) /\
  (forall cw rm a b s, a - b < -50 ->
     ExhibitionBenefitsSlider.handleSwipe cw rm a b s = ExhibitionBenefitsSlider.goToPrev cw rm s /\
     (0 < ExhibitionBenefitsSlider.currentIndex s ->
      ExhibitionBenefitsSlider.currentIndex (ExhibitionBenefitsSlider.handleSwipe cw rm a b s)
      = ExhibitionBenefitsSlider.currentIndex s - 1)).
Proof.
  split; [exact HeroFacts.hero_swipe_small|].
  split; [intros a b s H; rewrite HeroFacts.hero_swipe_left by exact H; apply HeroFacts.currentSlide_next|].
  split; [intros a b s H; rewrite HeroFacts.hero_swipe_right by exact H; apply HeroFacts.currentSlide_prev|].
  split; [exact ChooseFacts.choose_swipe_small|].
  split; [intros cw rm a b s H; rewrite ChooseFacts.choose_swipe_left by exact H;
          split; [reflexivity | apply ChooseFacts.choose_next_index]|].
  split; [intros cw rm a b s H; rewrite ChooseFacts.choose_swipe_right by exact H;
          split; [reflexivity | apply ChooseFacts.choose_prev_index]|].
  split; [exact BenefitsFacts.benefits_swipe_small|].
  split; [intros cw rm a b s H; rewrite BenefitsFacts.benefits_swipe_left by exact H;
          split; [reflexivity | apply BenefitsFacts.benefits_next_index]|].
  intros cw rm a b s H; rewrite BenefitsFacts.benefits_swipe_right by exact H;
    split; [reflexivity | apply BenefitsFacts.benefits_prev_index].
Qed.

Lemma swipe_threshold_and_direction_witness :
  let c := ChooseSchoolSlider.create 1200 6 6 in
  let b := ExhibitionBenefitsSlider.with_index 1 (ExhibitionBenefitsSlider.create 1200 6 true) in
  HeroSlider.handleSwipe 100 80 (HeroSlider.create 3) = HeroSlider.create 3 /\
  HeroSlider.currentSlide (HeroSlider.handleSwipe 200 100 (HeroSlider.create 3)) = 1 /\
  HeroSlider.currentSlide (HeroSlider.handleSwipe 100 200 (HeroSlider.create 3)) = 2 /\
  ChooseSchoolSlider.handleSwipe (Some 300) false 100 130 c = c /\
  ChooseSchoolSlider.currentIndex (ChooseSchoolSlider.handleSwipe (Some 300) false 200 100 c) = 1 /\
  ExhibitionBenefitsSlider.handleSwipe (Some 300) false 130 100 b = b /\
  ExhibitionBenefitsSlider.currentIndex (ExhibitionBenefitsSlider.handleSwipe (Some 300) false 200 100 b) = 2 /\
  ExhibitionBenefitsSlider.currentIndex (ExhibitionBenefitsSlider.handleSwipe (Some 300) false 100 200 b) = 0 /\
  ChooseSchoolSlider.handleSwipe (Some 300) false 100 200 c = ChooseSchoolSlider.goToPrev (Some 300) false c.
Proof.
  destruct swipe_threshold_and_direction as (H1 & H2 & H3 & H4 & H5 & H6 & H7 & H8 & H9).
  cbv zeta.
  split; [apply H1; vm_compute; discriminate|].
  split; [rewrite H2 by lia; reflexivity|].
  split; [rewrite H3 by lia; reflexivity|].
  split; [apply H4; vm_compute; discriminate|].
  split; [apply (H5 (Some 300) false 200 100); [lia | reflexivity]|].
  split; [apply H7; vm_compute; discriminate|].
  split; [apply (H8 (Some 300) false 200 100); [lia | reflexivity]|].
  split; [apply (H9 (Some 300) false 100 200); [lia | reflexivity]|].
  apply (H6 (Some 300) false 100 200). lia.
Defined.

(** C3 counterexample: on the choose-school slider at its last position
    ([currentIndex = maxIndex = 2]), a 100px leftward swipe leaves the
    index unchanged. *)
Lemma choose_swipe_at_last_position :
  let s := ChooseSchoolSlider.run (Some 300) false [ChooseSchoolSlider.GoTo 2]
             (ChooseSchoolSlider.init (Some 300) false (ChooseSchoolSlider.create 1200 6 6)) in
  ChooseSchoolSlider.currentIndex s = 2 /\
  ChooseSchoolSlider.currentIndex (ChooseSchoolSlider.handleSwipe (Some 300) false 200 100 s) = 2.
Proof. split; reflexivity. Qed.

(** On the benefits slider one touch runs both [handleSwipe] and the drag
    listeners; on touchend the drag snap runs last and decides the index.
    A 60px leftward touch swipe from the first card (cards 300px wide)
    ends back on card 0. *)
Lemma benefits_touch_swipe_snaps_back :
  let s0 := ExhibitionBenefitsSlider.init (Some 300) false
              (ExhibitionBenefitsSlider.create 1200 6 true) in
  ExhibitionBenefitsSlider.currentIndex
    (ExhibitionBenefitsSlider.handleSwipe (Some 300) false 500 440 s0) = 1 /\
  ExhibitionBenefitsSlider.currentIndex
    (ExhibitionBenefitsSlider.run (Some 300) false
       [ExhibitionBenefitsSlider.TouchStart 500; ExhibitionBenefitsSlider.TouchMove 440;
        ExhibitionBenefitsSlider.TouchEnd 440] s0) = 0.
Proof. split; reflexivity. Qed.

(** ** Rendering and layout *)

(** C7.  [updateSlider] of both offset-based carousels sets the transform
    to [-(currentIndex * (cardWidth + 24))], with [cardWidth] read as
    [cards[0]?.offsetWidth || 0].  The offset is the same with or without
    reduced motion; reduced motion only sets the inline transition to
    ['none']. *)
Theorem updateSlider_offset :
  (forall cw rm s,
     transformX (ChooseSchoolSlider.style (ChooseSchoolSlider.updateSlider cw rm s))
     = - (ChooseSchoolSlider.currentIndex s * (match cw with Some w => w | None => 0 end + 24)) /\
     transformX (ChooseSchoolSlider.style (ChooseSchoolSlider.updateSlider cw true s))
     = transformX (ChooseSchoolSlider.style (ChooseSchoolSlider.updateSlider cw false s)) /\
     transition_none (ChooseSchoolSlider.style (ChooseSchoolSlider.updateSlider cw true s)) = true) /\
  (forall cw rm s,
     transformX (ExhibitionBenefitsSlider.style (ExhibitionBenefitsSlider.updateSlider cw rm s))
     = - (ExhibitionBenefitsSlider.currentIndex s * (match cw with Some w => w | None => 0 end + 24)) /\
     transformX (ExhibitionBenefitsSlider.style (ExhibitionBenefitsSlider.updateSlider cw true s))
     = transformX (ExhibitionBenefitsSlider.style (ExhibitionBenefitsSlider.updateSlider cw false s)) /\
     transition_none (ExhibitionBenefitsSlider.style (ExhibitionBenefitsSlider.updateSlider cw true s)) = true).
Proof.
  split; intros cw rm s; destruct rm; repeat split.
Qed.

(** C8.  [getCardsPerView] of both sliders: 1 below 480px, 2 at 900px and
    4 at 1400px. *)
Theorem getCardsPerView_buckets :
  (forall width, width < 480 ->
     ChooseSchoolSlider.getCardsPerView width = 1 /\
     ExhibitionBenefitsSlider.getCardsPerView width = 1) /\
  ChooseSchoolSlider.getCardsPerView 900 = 2 /\
  ExhibitionBenefitsSlider.getCardsPerView 900 = 2 /\
  ChooseSchoolSlider.getCardsPerView 1400 = 4 /\
  ExhibitionBenefitsSlider.getCardsPerView 1400 = 4.
Proof.
  split; [| repeat split].
  intros width H.
  unfold ChooseSchoolSlider.getCardsPerView, ExhibitionBenefitsSlider.getCardsPerView.
  destruct (Z.ltb_spec width 480); [split; reflexivity | lia].
Qed.

Lemma getCardsPerView_buckets_witness :
  320 < 480 /\ ChooseSchoolSlider.getCardsPerView 320 = 1 /\
  ExhibitionBenefitsSlider.getCardsPerView 320 = 1.
Proof.
  assert (H : 320 < 480) by lia.
  split; [exact H|]. apply (proj1 getCardsPerView_buckets 320 H).
Defined.

(** ** Form validation *)

Module FormFacts.
Import FormValidator.
Open Scope string_scope.

Lemma validateField_eq f :
  validateField f =
    (fst (fieldCheck f),
     if fst (fieldCheck f) then [ClearError (id f)]
     else [ClearError (id f); ShowError (id f) (snd (fieldCheck f))]).
Proof.
  unfold validateField. destruct (fieldCheck f) as [[|] m]; reflexivity.
Qed.

Lemma validate_each_eq l acc :
  validate_each l acc =
    (acc && forallb (fun f => fst (fieldCheck f)) l,
     flat_map (fun f => snd (validateField f)) l).
Proof.
  revert acc. induction l as [|f l IH]; intros acc; simpl.
  - rewrite andb_true_r. reflexivity.
  - unfold bind. rewrite (validateField_eq f), IH. simpl.
    destruct (fst (fieldCheck f)), acc; reflexivity.
Qed.

Definition validation_effect (e : effect) : Prop :=
  match e with ClearError _ | ShowError _ _ => True | _ => False end.

Lemma trim_left_all_ws s :
  forallb is_ws (list_ascii_of_string s) = true -> trim_left s = "".
Proof.
  induction s as [|c s IH]; simpl; [reflexivity|].
  intros H. apply andb_prop in H as [Hc Hs]. rewrite Hc. apply IH, Hs.
Qed.

Lemma trim_all_ws s :
  forallb is_ws (list_ascii_of_string s) = true -> trim s = "".
Proof. intros H. unfold trim. rewrite (trim_left_all_ws s H). reflexivity. Qed.

End FormFacts.

(** C4.  On submit the default (network) submission is always prevented,
    every required input is re-validated, and submission goes on exactly
    when all of them pass.  If one fails, the trace holds only the
    per-field error effects, with an error shown for each failing field.
    Otherwise the values are logged, the success message is appended, its
    removal is scheduled after 5000 ms and the form is reset. *)
Theorem submit_blocked_iff_required_field_fails (form : list FormValidator.field) :
  let '(ok, tr) := FormValidator.validateForm form in
  ok = forallb (fun f => fst (FormValidator.fieldCheck f)) (filter FormValidator.required form) /\
  Forall FormFacts.validation_effect tr /\
  (forall f, In f form -> FormValidator.required f = true ->
     fst (FormValidator.fieldCheck f) = false ->
     In (FormValidator.ShowError (FormValidator.id f) (snd (FormValidator.fieldCheck f))) tr) /\
  snd (FormValidator.onSubmit form) =
    FormValidator.PreventDefault :: tr ++
      (if ok then
         [FormValidator.ConsoleLog "Form submitted:" (FormValidator.formData form);
          FormValidator.AppendSuccess FormValidator.success_text;
          FormValidator.SetTimeout 5000 FormValidator.RemoveSuccess;
          FormValidator.FormReset]
       else []).
Proof.
  unfold FormValidator.validateForm.
  rewrite FormFacts.validate_each_eq. simpl andb.
  split; [reflexivity|].
  split; [|split].
  - apply Forall_forall. intros e He.
    apply in_flat_map in He as [f [_ He]].
    rewrite FormFacts.validateField_eq in He. simpl in He.
    destruct (fst (FormValidator.fieldCheck f)); simpl in He;
      repeat (destruct He as [He | He]; [subst; exact I|]); contradiction.
  - intros f Hin Hreq Hbad. apply in_flat_map. exists f. split.
    + apply filter_In. split; assumption.
    + rewrite FormFacts.validateField_eq, Hbad. simpl. right. left. reflexivity.
  - unfold FormValidator.onSubmit, FormValidator.validateForm.
    unfold FormValidator.bind at 1. simpl.
    rewrite FormFacts.validate_each_eq. simpl andb.
    destruct (forallb _ _); reflexivity.
Qed.

Lemma submit_blocked_iff_required_field_fails_witness :
  let f := FormValidator.mkField "phone" "phone" "tel" true "12345" in
  In (FormValidator.ShowError "phone" FormValidator.msg_phone)
     (snd (FormValidator.validateForm [f])) /\
  snd (FormValidator.onSubmit [f]) =
    FormValidator.PreventDefault :: snd (FormValidator.validateForm [f]).
Proof.
  cbv zeta.
  pose proof (submit_blocked_iff_required_field_fails
                [FormValidator.mkField "phone" "phone" "tel" true "12345"]) as H.
  destruct (FormValidator.validateForm _) as [ok tr] eqn:E.
  destruct H as (Hok & _ & Hshow & Hsub).
  split.
  - apply (Hshow (FormValidator.mkField "phone" "phone" "tel" true "12345"));
      [left; reflexivity | reflexivity | reflexivity].
  - rewrite Hsub, Hok. simpl forallb. cbv iota. rewrite app_nil_r. reflexivity.
Defined.

(** C5 (amended).  For a [tel] input the value is trimmed first.  Blur
    validation fails exactly when the trimmed value is non-empty and is not
    ten decimal digits, or is empty in a required field, and an error is
    shown exactly then.  Nine or eleven digits give the phone error; ten
    digits pass. *)
Theorem phone_field_validation :
  (forall f, FormValidator.type_ f = "tel"%string ->
     (fst (FormValidator.fieldCheck f) = false <->
        (FormValidator.trim (FormValidator.value f) <> ""%string /\
         FormValidator.phoneRegex_test (FormValidator.trim (FormValidator.value f)) = false) \/
        (FormValidator.required f = true /\ FormValidator.trim (FormValidator.value f) = ""%string)) /\
     FormValidator.onBlur f =
       (fst (FormValidator.fieldCheck f),
        if fst (FormValidator.fieldCheck f) then [FormValidator.ClearError (FormValidator.id f)]
        else [FormValidator.ClearError (FormValidator.id f);
              FormValidator.ShowError (FormValidator.id f) (snd (FormValidator.fieldCheck f))])) /\
  (forall i n r,
     FormValidator.fieldCheck (FormValidator.mkField i n "tel" r "123456789")
       = (false, FormValidator.msg_phone) /\
     FormValidator.fieldCheck (FormValidator.mkField i n "tel" r "12345678901")
       = (false, FormValidator.msg_phone) /\
     fst (FormValidator.fieldCheck (FormValidator.mkField i n "tel" r "1234567890")) = true).
Proof.
  split.
  - intros f Htel. split; [| apply FormFacts.validateField_eq].
    unfold FormValidator.fieldCheck. rewrite Htel.
    destruct (FormValidator.required f);
      destruct (String.eqb_spec (FormValidator.trim (FormValidator.value f)) "") as [E|E];
      destruct (FormValidator.phoneRegex_test (FormValidator.trim (FormValidator.value f)));
      simpl; split; intros H; try reflexivity; try discriminate;
      try (left; split; [exact E | reflexivity]);
      try (right; split; [reflexivity | exact E]);
      try (destruct H as [[H1 H2] | [H1 H2]]; congruence).
  - intros i n r. destruct r; repeat split.
Qed.

Lemma phone_field_validation_witness :
  let f := FormValidator.mkField "phone" "phone" "tel" false "98765" in
  FormValidator.type_ f = "tel"%string /\ fst (FormValidator.fieldCheck f) = false /\
  FormValidator.onBlur f =
    (false, [FormValidator.ClearError "phone";
             FormValidator.ShowError "phone" FormValidator.msg_phone]).
Proof.
  cbv zeta.
  assert (Ht : FormValidator.type_ (FormValidator.mkField "phone" "phone" "tel" false "98765")
               = "tel"%string) by reflexivity.
  destruct (proj1 phone_field_validation _ Ht) as [Hiff Hblur].
  assert (Hf : fst (FormValidator.fieldCheck
                      (FormValidator.mkField "phone" "phone" "tel" false "98765")) = false).
  { apply Hiff. left. split; [discriminate | reflexivity]. }
  split; [exact Ht|]. split; [exact Hf|].
  rewrite Hblur, Hf. reflexivity.
Defined.

(** C5 counterexample: a non-empty [tel] value that does not match
    [/^[0-9]{10}$/] (ten digits and a trailing space) passes blur
    validation, because the pattern is tested on the trimmed value. *)
Lemma phone_padded_value_passes :
  let f := FormValidator.mkField "phone" "phone" "tel" false "1234567890 " in
  FormValidator.value f <> ""%string /\
  FormValidator.phoneRegex_test (FormValidator.value f) = false /\
  FormValidator.onBlur f = (true, [FormValidator.ClearError "phone"]).
Proof. split; [discriminate | split; reflexivity]. Qed.

(** C10.  A required input whose value is only white space is trimmed to
    the empty string and fails blur validation with the required-field
    error. *)
Theorem required_whitespace_value_fails (f : FormValidator.field) :
  FormValidator.required f = true ->
  forallb FormValidator.is_ws (list_ascii_of_string (FormValidator.value f)) = true ->
  FormValidator.onBlur f =
    (false, [FormValidator.ClearError (FormValidator.id f);
             FormValidator.ShowError (FormValidator.id f) FormValidator.msg_required]).
Proof.
  intros Hreq Hws.
  unfold FormValidator.onBlur, FormValidator.validateField, FormValidator.fieldCheck.
  rewrite (FormFacts.trim_all_ws _ Hws), Hreq. reflexivity.
Qed.

Lemma required_whitespace_value_fails_witness :
  FormValidator.onBlur (FormValidator.mkField "name" "name" "text" true "   ") =
    (false, [FormValidator.ClearError "name";
             FormValidator.ShowError "name" FormValidator.msg_required]).
Proof. apply required_whitespace_value_fails; reflexivity. Defined.

(** ** Scroll animations and the deferred benefits slider *)

Module PageFacts.
Import Page.

Definition observed (st : state) (t : section) : Prop :=
  match observer st with Some l => In t l | None => False end.



Lemma callback_cons cw rm en entries st :
  callback cw rm (en :: entries) st = callback cw rm entries (onEntry cw rm (fst en) (snd en) st).
Proof. reflexivity. Qed.

Lemma callback_single cw rm t b st :
  callback cw rm [(t, b)] st = onEntry cw rm t b st.
Proof. reflexivity. Qed.

Lemma callback_app cw rm l1 l2 st :
  callback cw rm (l1 ++ l2) st = callback cw rm l2 (callback cw rm l1 st).
Proof. unfold callback. apply fold_left_app. Qed.



(** The slider methods keep the track and the card count. *)
Lemma benefits_dispatch_shape cw rm e b :
  B.hasTrack (B.dispatch cw rm e b) = B.hasTrack b /\
  B.cardCount (B.dispatch cw rm e b) = B.cardCount b.
Proof.
  unfold B.dispatch. destruct (negb (B.activated b)); [split; reflexivity|].
  destruct e; unfold B.onPointerUp, B.handleSwipe, B.onWheel, B.onPointerMove, B.onResize,
    B.onPointerDown, B.onTouchStartSwipe, B.goToNext, B.goToPrev;
    repeat (match goal with |- context [if ?c then _ else _] => destruct c end);
    split; reflexivity.
Qed.

Lemma benefits_dispatch_activated cw rm e b :
  B.activated (B.dispatch cw rm e b) = B.activated b.
Proof.
  unfold B.dispatch. destruct (negb (B.activated b)) eqn:A; [reflexivity|].
  destruct e; unfold B.onPointerUp, B.handleSwipe, B.onWheel, B.onPointerMove, B.onResize,
    B.onPointerDown, B.onTouchStartSwipe, B.goToNext, B.goToPrev;
    repeat (match goal with |- context [if ?c then _ else _] => destruct c end);
    simpl; destruct (B.activated b); try reflexivity; discriminate.
Qed.

Lemma benefits_init_shape cw rm b :
  B.hasTrack (B.init cw rm b) = B.hasTrack b /\ B.cardCount (B.init cw rm b) = B.cardCount b.
Proof.
  unfold B.init. destruct (B.activated b); [split; reflexivity|].
  destruct (negb (B.hasTrack b) || (B.cardCount b =? 0)); split; reflexivity.
Qed.








Lemma onEntry_slider cw rm u b st :
  benefitsSlider (onEntry cw rm u b st)
  = if b then
      if section_eq_dec u ExhibitionBenefits
      then option_map (B.init cw rm) (benefitsSlider st) else benefitsSlider st
    else benefitsSlider st.
Proof.
  unfold onEntry. destruct b; [| reflexivity].
  destruct (section_eq_dec u ExhibitionBenefits); [destruct (benefitsSlider st)|]; reflexivity.
Qed.




(** A threshold crossing of an observed target followed by the delivery
    of the queue. *)
Lemma deliver_after cw rm t b st targets :
  observer st = Some targets -> In t targets ->
  run cw rm [Intersection t b; Deliver] st
  = callback cw rm (queued st ++ [(t, b)])
      (mkState (observer st) [] (revealLog st) (benefitsSlider st) (benefitsInitCalls st)).
Proof.
  intros Ho Hin. destruct st as [obs q log bs calls]; simpl in *. subst obs.
  destruct (in_dec section_eq_dec t targets); [reflexivity | contradiction].
Qed.












(** The benefits slider, through the page events: the callback only calls
    its [init()], the page only forwards its events. *)
Lemma onEntry_slider_pred (P : option B.state -> Prop) cw rm u b st :
  (forall x, P (Some x) -> P (Some (B.init cw rm x))) ->
  P (benefitsSlider st) -> P (benefitsSlider (onEntry cw rm u b st)).
Proof.
  intros Hi H. rewrite onEntry_slider. destruct b; [| exact H].
  destruct (section_eq_dec u ExhibitionBenefits); [| exact H].
  destruct (benefitsSlider st); [apply Hi, H | exact H].
Qed.

Lemma callback_slider_pred (P : option B.state -> Prop) cw rm entries st :
  (forall x, P (Some x) -> P (Some (B.init cw rm x))) ->
  P (benefitsSlider st) -> P (benefitsSlider (callback cw rm entries st)).
Proof.
  intros Hi. revert st. induction entries as [|en entries IH]; intros st H; [exact H|].
  rewrite callback_cons. apply IH, onEntry_slider_pred, H. exact Hi.
Qed.

Lemma step_slider_pred (P : option B.state -> Prop) cw rm e st :
  (forall x, P (Some x) -> P (Some (B.init cw rm x))) ->
  (forall be x, P (Some x) -> P (Some (B.dispatch cw rm be x))) ->
  P (benefitsSlider st) -> P (benefitsSlider (step cw rm e st)).
Proof.
  intros Hi Hd H. destruct e as [u b | | be]; simpl.
  - destruct (observer st) as [targets|]; [| exact H].
    destruct (in_dec section_eq_dec u targets); exact H.
  - destruct (observer st) as [targets|]; [| exact H].
    apply callback_slider_pred; [exact Hi | exact H].
  - destruct (benefitsSlider st); [apply Hd, H | exact H].
Qed.

Lemma run_slider_pred (P : option B.state -> Prop) cw rm es st :
  (forall x, P (Some x) -> P (Some (B.init cw rm x))) ->
  (forall be x, P (Some x) -> P (Some (B.dispatch cw rm be x))) ->
  P (benefitsSlider st) -> P (benefitsSlider (run cw rm es st)).
Proof.
  intros Hi Hd. revert st. induction es as [|e es IH]; intros st H; simpl; [exact H|].
  apply IH, step_slider_pred; assumption.
Qed.

(** Without an observer and with the benefits slider inactive, no event
    changes the page state. *)
Definition dormant (st : state) : Prop :=
  observer st = None /\
  forall b, benefitsSlider st = Some b -> ExhibitionBenefitsSlider.activated b = false.

Lemma step_dormant cw rm e st : dormant st -> step cw rm e st = st.
Proof.
  intros [Ho Hb]. destruct e as [t b | | be]; simpl.
  - rewrite Ho. reflexivity.
  - rewrite Ho. reflexivity.
  - destruct st as [obs q log bs calls]; simpl in *.
    destruct bs as [b|]; simpl; [| reflexivity].
    rewrite BenefitsFacts.dispatch_inactive by (apply Hb; reflexivity).
    reflexivity.
Qed.

Lemma run_dormant cw rm es st : dormant st -> run cw rm es st = st.
Proof.
  revert st. induction es as [|e es IH]; intros st H; simpl; [reflexivity|].
  rewrite (step_dormant cw rm e st H). apply IH, H.
Qed.

End PageFacts.




(** Entries queued before the callback runs are all handled: two
    intersecting entries of the benefits section in one batch add the class
    twice and call [init()] twice. *)
Lemma benefits_entry_twice_in_batch :
  let st := Page.run None false
              [Page.Intersection Page.ExhibitionBenefits true;
               Page.Intersection Page.ExhibitionBenefits false;
               Page.Intersection Page.ExhibitionBenefits true; Page.Deliver]
              (Page.load false (Some (1200, 6, true))) in
  Page.revealLog st = [Page.ExhibitionBenefits; Page.ExhibitionBenefits] /\
  Page.benefitsInitCalls st = 2%nat.
Proof. split; reflexivity. Qed.

(** C9.  Under a reduced-motion preference [initScrollAnimations] returns
    before creating the observer.  Whatever events follow, no section is
    revealed and [init()] of the deferred benefits slider is never called.
    The slider keeps its constructed state and stays inactive: its own
    listeners are never registered. *)
Theorem reduced_motion_benefits_never_activated cw c es :
  let st := Page.run cw true es (Page.load true c) in
  Page.observer st = None /\
  Page.revealLog st = [] /\
  Page.benefitsInitCalls st = 0%nat /\
  Page.benefitsSlider st = Page.createBenefits c /\
  match Page.benefitsSlider st with
  | Some b => ExhibitionBenefitsSlider.activated b = false
  | None => True
  end.
Proof.
  cbv zeta.
  rewrite PageFacts.run_dormant.
  - destruct c as [[[w n] t]|]; repeat split.
  - split; [reflexivity|].
    intros b Hb. destruct c as [[[w n] t]|]; simpl in Hb; [| discriminate].
    injection Hb as <-. reflexivity.
Qed.

(** * Further properties of the widgets *)

Module HeroPlayerFacts.
Import HeroPlayer.

(** At most one live interval, the one in [autoplayInterval]. *)
Definition timers_ok (s : state) : Prop :=
  liveIntervals s = match autoplayInterval s with Some i => [i] | None => [] end /\
  (isPaused s = false \/ autoplayInterval s = None).

Definition aria_ok (s : state) : Prop :=
  ariaLive s = (if isPaused s then "polite"%string else "off"%string) /\
  (hasPauseBtn s = true ->
     pauseLabel s = Some (if isPaused s then "Play slideshow"%string else "Pause slideshow"%string) /\
     pauseIcon s = Some (if isPaused s then PlayGlyph else PauseGlyph)).

Lemma stop_live s :
  liveIntervals s = match autoplayInterval s with Some i => [i] | None => [] end ->
  autoplayInterval (stopAutoplay s) = None /\ liveIntervals (stopAutoplay s) = [].
Proof.
  intros H. unfold stopAutoplay.
  destruct (autoplayInterval s) as [i|] eqn:E; try rewrite E in H; simpl.
  - rewrite H. simpl. destruct (Nat.eq_dec i i) as [_|n]; [split; reflexivity | contradiction].
  - split; [exact E | exact H].
Qed.

Lemma stop_fields s :
  slider (stopAutoplay s) = slider s /\ isPaused (stopAutoplay s) = isPaused s /\
  hasPauseBtn (stopAutoplay s) = hasPauseBtn s /\ ariaLive (stopAutoplay s) = ariaLive s /\
  pauseLabel (stopAutoplay s) = pauseLabel s /\ pauseIcon (stopAutoplay s) = pauseIcon s.
Proof. unfold stopAutoplay. destruct (autoplayInterval s); repeat split. Qed.

Lemma stop_timers_ok s :
  liveIntervals s = match autoplayInterval s with Some i => [i] | None => [] end ->
  timers_ok (stopAutoplay s).
Proof.
  intros H. destruct (stop_live s H) as [H1 H2].
  split; [rewrite H1, H2; reflexivity | right; exact H1].
Qed.

Lemma start_timers_ok s :
  liveIntervals s = match autoplayInterval s with Some i => [i] | None => [] end ->
  isPaused s = false -> timers_ok (startAutoplay false s).
Proof.
  intros H Hp. unfold startAutoplay.
  destruct (stop_live s H) as [_ H2].
  destruct (stop_fields s) as (_ & Hp' & _).
  split; simpl; [rewrite H2; reflexivity | left; rewrite Hp'; exact Hp].
Qed.

Lemma update_aria_ok s : aria_ok (updateAriaLabels s).
Proof.
  split; [reflexivity|]. intros Hb. simpl in Hb. simpl. rewrite Hb. split; reflexivity.
Qed.

Lemma toggle_timers_ok rm s : timers_ok s -> timers_ok (toggleAutoplay rm s).
Proof.
  intros [H1 H2]. unfold toggleAutoplay. change (timers_ok
    (if negb (isPaused s)
     then stopAutoplay (mkState (slider s) (negb (isPaused s)) (autoplayInterval s)
            (liveIntervals s) (nextTimerId s) (hasPauseBtn s) (ariaLive s) (pauseLabel s)
            (pauseIcon s))
     else startAutoplay rm (mkState (slider s) (negb (isPaused s)) (autoplayInterval s)
            (liveIntervals s) (nextTimerId s) (hasPauseBtn s) (ariaLive s) (pauseLabel s)
            (pauseIcon s)))).
  destruct (isPaused s) eqn:E; simpl.
  - destruct rm.
    + split; [exact H1 | left; reflexivity].
    + apply start_timers_ok; [exact H1 | reflexivity].
  - apply stop_timers_ok. exact H1.
Qed.

Lemma mouseleave_timers_ok rm s : timers_ok s ->
  timers_ok (if negb (isPaused s) then startAutoplay rm s else s).
Proof.
  intros H. destruct (isPaused s) eqn:E; simpl; [exact H|].
  destruct rm; [exact H|]. destruct H as [H1 _]. apply start_timers_ok; assumption.
Qed.

Lemma dispatch_timers_ok rm e s : timers_ok s -> timers_ok (dispatch rm e s).
Proof.
  intros H. unfold dispatch.
  destruct (HeroSlider.slideCount (slider s) =? 0); [exact H|].
  destruct e as [| | | | | | | | a b | i].
  - exact H.
  - exact H.
  - apply toggle_timers_ok, H.
  - exact H.
  - exact H.
  - apply toggle_timers_ok, H.
  - apply stop_timers_ok, H.
  - apply mouseleave_timers_ok, H.
  - unfold handleSwipe. destruct (js_abs (a - b) >? 50); [| exact H].
    destruct (a - b >? 0); exact H.
  - destruct (in_dec Nat.eq_dec i (liveIntervals s)); exact H.
Qed.

Lemma run_timers_ok rm es s : timers_ok s -> timers_ok (run rm es s).
Proof.
  revert s. induction es as [|e es IH]; intros s H; simpl; [exact H|].
  apply IH, dispatch_timers_ok, H.
Qed.

Lemma create_timers_ok rm n b : timers_ok (create rm n b).
Proof.
  unfold create. destruct (n =? 0); [split; [reflexivity | left; reflexivity]|].
  destruct rm; simpl; split; try reflexivity; left; reflexivity.
Qed.

(** Under reduced motion no interval is ever created. *)
Definition no_timer (s : state) : Prop :=
  autoplayInterval s = None /\ liveIntervals s = [].

Lemma stop_no_timer s : no_timer s -> no_timer (stopAutoplay s).
Proof. intros [H1 H2]. unfold stopAutoplay. rewrite H1. split; assumption. Qed.

Lemma toggle_no_timer s : no_timer s -> no_timer (toggleAutoplay true s).
Proof.
  intros H. unfold toggleAutoplay.
  match goal with |- no_timer (updateAriaLabels (if isPaused ?x then _ else _)) =>
    set (s1 := x) end.
  assert (H1 : no_timer s1) by exact H.
  change (no_timer (if isPaused s1 then stopAutoplay s1 else startAutoplay true s1)).
  destruct (isPaused s1); [apply stop_no_timer, H1 | exact H1].
Qed.

Lemma dispatch_no_timer e s : no_timer s -> no_timer (dispatch true e s).
Proof.
  intros H. unfold dispatch.
  destruct (HeroSlider.slideCount (slider s) =? 0); [exact H|].
  destruct e as [| | | | | | | | a b | i].
  - exact H.
  - exact H.
  - apply toggle_no_timer, H.
  - exact H.
  - exact H.
  - apply toggle_no_timer, H.
  - apply stop_no_timer, H.
  - destruct (negb (isPaused s)); exact H.
  - unfold handleSwipe. destruct (js_abs (a - b) >? 50); [| exact H].
    destruct (a - b >? 0); exact H.
  - destruct (in_dec Nat.eq_dec i (liveIntervals s)); exact H.
Qed.

Lemma run_no_timer es s : no_timer s -> no_timer (run true es s).
Proof.
  revert s. induction es as [|e es IH]; intros s H; simpl; [exact H|].
  apply IH, dispatch_no_timer, H.
Qed.

Lemma dispatch_aria_ok rm e s : aria_ok s -> aria_ok (dispatch rm e s).
Proof.
  intros H. unfold dispatch.
  destruct (HeroSlider.slideCount (slider s) =? 0); [exact H|].
  destruct e as [| | | | | | | | a b | i].
  - apply update_aria_ok.
  - apply update_aria_ok.
  - apply update_aria_ok.
  - apply update_aria_ok.
  - apply update_aria_ok.
  - apply update_aria_ok.
  - unfold pauseAutoplay, stopAutoplay. destruct (autoplayInterval s); exact H.
  - destruct (negb (isPaused s)); [| exact H].
    unfold startAutoplay, stopAutoplay. destruct rm; [exact H|].
    destruct (autoplayInterval s); exact H.
  - unfold handleSwipe. destruct (js_abs (a - b) >? 50); [| exact H].
    destruct (a - b >? 0); apply update_aria_ok.
  - destruct (in_dec Nat.eq_dec i (liveIntervals s)); [apply update_aria_ok | exact H].
Qed.

Lemma run_aria_ok rm es s : aria_ok s -> aria_ok (run rm es s).
Proof.
  revert s. induction es as [|e es IH]; intros s H; simpl; [exact H|].
  apply IH, dispatch_aria_ok, H.
Qed.

Lemma create_aria_ok rm n b : 0 < n -> aria_ok (create rm n b).
Proof.
  intros Hn. unfold create. destruct (Z.eqb_spec n 0); [lia|]. apply update_aria_ok.
Qed.

End HeroPlayerFacts.

Module HeroActiveFacts.
Import HeroPlayer.

Definition active_ok (sl : HeroSlider.state) : Prop :=
  HeroSlider.active sl
    = map (fun i => Z.of_nat i =? HeroSlider.currentSlide sl)
          (seq 0 (Z.to_nat (HeroSlider.slideCount sl))) /\
  0 <= HeroSlider.currentSlide sl < HeroSlider.slideCount sl.

Lemma next_active_ok sl : active_ok sl -> active_ok (HeroSlider.goToNextSlide sl).
Proof.
  intros [_ H]. split; [reflexivity|].
  rewrite HeroFacts.currentSlide_next, HeroFacts.slideCount_next. unfold js_rem.
  apply Z.rem_bound_pos; lia.
Qed.

Lemma prev_active_ok sl : active_ok sl -> active_ok (HeroSlider.goToPrevSlide sl).
Proof.
  intros [_ H]. split; [reflexivity|].
  rewrite HeroFacts.currentSlide_prev, HeroFacts.slideCount_prev. unfold js_rem.
  apply Z.rem_bound_pos; lia.
Qed.

Lemma stop_slider s : slider (stopAutoplay s) = slider s.
Proof. unfold stopAutoplay. destruct (autoplayInterval s); reflexivity. Qed.

Lemma start_slider rm s : slider (startAutoplay rm s) = slider s.
Proof. unfold startAutoplay. destruct rm; [reflexivity|]. simpl. apply stop_slider. Qed.

Lemma toggle_slider rm s : slider (toggleAutoplay rm s) = slider s.
Proof.
  unfold toggleAutoplay. cbn [isPaused].
  destruct (negb (isPaused s)); cbn [updateAriaLabels slider];
    [rewrite stop_slider | rewrite start_slider]; reflexivity.
Qed.

Lemma dispatch_active_ok rm e s : active_ok (slider s) -> active_ok (slider (dispatch rm e s)).
Proof.
  intros H. unfold dispatch.
  destruct (HeroSlider.slideCount (slider s) =? 0); [exact H|].
  destruct e as [| | | | | | | | a b | i].
  - apply prev_active_ok, H.
  - apply next_active_ok, H.
  - rewrite toggle_slider. exact H.
  - apply prev_active_ok, H.
  - apply next_active_ok, H.
  - rewrite toggle_slider. exact H.
  - unfold pauseAutoplay. rewrite stop_slider. exact H.
  - destruct (negb (isPaused s)); [rewrite start_slider|]; exact H.
  - unfold handleSwipe. destruct (js_abs (a - b) >? 50); [| exact H].
    destruct (a - b >? 0); [apply next_active_ok | apply prev_active_ok]; exact H.
  - destruct (in_dec Nat.eq_dec i (liveIntervals s)); [apply next_active_ok | ]; exact H.
Qed.

Lemma player_dispatch_slideCount rm e s :
  HeroSlider.slideCount (slider (dispatch rm e s)) = HeroSlider.slideCount (slider s).
Proof.
  unfold dispatch.
  destruct (HeroSlider.slideCount (slider s) =? 0); [reflexivity|].
  destruct e as [| | | | | | | | a b | i]; try reflexivity.
  - rewrite toggle_slider. reflexivity.
  - rewrite toggle_slider. reflexivity.
  - unfold pauseAutoplay. rewrite stop_slider. reflexivity.
  - destruct (negb (isPaused s)); [rewrite start_slider|]; reflexivity.
  - unfold handleSwipe. destruct (js_abs (a - b) >? 50); [| reflexivity].
    destruct (a - b >? 0); reflexivity.
  - destruct (in_dec Nat.eq_dec i (liveIntervals s)); reflexivity.
Qed.

Lemma player_run_slideCount rm es s :
  HeroSlider.slideCount (slider (run rm es s)) = HeroSlider.slideCount (slider s).
Proof.
  revert s. induction es as [|e es IH]; intros s; simpl; [reflexivity|].
  rewrite IH. apply player_dispatch_slideCount.
Qed.

Lemma run_active_ok rm es s : active_ok (slider s) -> active_ok (slider (run rm es s)).
Proof.
  revert s. induction es as [|e es IH]; intros s H; simpl; [exact H|].
  apply IH, dispatch_active_ok, H.
Qed.

Lemma create_active_ok rm n b : 0 < n -> active_ok (slider (create rm n b)).
Proof.
  intros Hn. unfold create. destruct (Z.eqb_spec n 0); [lia|].
  assert (Hs : slider (if negb rm then startAutoplay rm
                 (mkState (HeroSlider.create n) false None [] 1%nat b ""%string None None)
               else mkState (HeroSlider.create n) false None [] 1%nat b ""%string None None)
             = HeroSlider.create n)
    by (destruct rm; [reflexivity | apply start_slider]).
  change (active_ok (slider (if negb rm then startAutoplay rm
                 (mkState (HeroSlider.create n) false None [] 1%nat b ""%string None None)
               else mkState (HeroSlider.create n) false None [] 1%nat b ""%string None None))).
  rewrite Hs. split; [| simpl; lia].
  simpl. apply map_ext. intros [|i]; reflexivity.
Qed.

Lemma nth_active sl j :
  active_ok sl -> (j < Z.to_nat (HeroSlider.slideCount sl))%nat ->
  nth j (HeroSlider.active sl) false = (Z.of_nat j =? HeroSlider.currentSlide sl).
Proof.
  intros [H _] Hj. rewrite H.
  rewrite (nth_indep _ false ((fun i => Z.of_nat i =? HeroSlider.currentSlide sl) 0%nat))
    by (rewrite length_map, length_seq; exact Hj).
  rewrite (map_nth (fun i => Z.of_nat i =? HeroSlider.currentSlide sl)).
  rewrite seq_nth by exact Hj. reflexivity.
Qed.

(** The current slide is a valid position; the flags are left as they
    are, whatever the markup set. *)
Definition in_range (sl : HeroSlider.state) : Prop :=
  0 <= HeroSlider.currentSlide sl < HeroSlider.slideCount sl.

Lemma next_in_range sl : in_range sl -> active_ok (HeroSlider.goToNextSlide sl).
Proof.
  intros H. split; [reflexivity|].
  rewrite HeroFacts.currentSlide_next, HeroFacts.slideCount_next. unfold js_rem.
  unfold in_range in H. apply Z.rem_bound_pos; lia.
Qed.

Lemma prev_in_range sl : in_range sl -> active_ok (HeroSlider.goToPrevSlide sl).
Proof.
  intros H. split; [reflexivity|].
  rewrite HeroFacts.currentSlide_prev, HeroFacts.slideCount_prev. unfold js_rem.
  unfold in_range in H. apply Z.rem_bound_pos; lia.
Qed.

Lemma dispatch_in_range rm e s : in_range (slider s) -> in_range (slider (dispatch rm e s)).
Proof.
  intros H.
  assert (Hn : forall sl, active_ok sl -> in_range sl) by (intros sl [_ Hr]; exact Hr).
  unfold dispatch.
  destruct (HeroSlider.slideCount (slider s) =? 0); [exact H|].
  destruct e as [| | | | | | | | a b | i].
  - apply Hn, prev_in_range, H.
  - apply Hn, next_in_range, H.
  - rewrite toggle_slider. exact H.
  - apply Hn, prev_in_range, H.
  - apply Hn, next_in_range, H.
  - rewrite toggle_slider. exact H.
  - unfold pauseAutoplay. rewrite stop_slider. exact H.
  - destruct (negb (isPaused s)); [rewrite start_slider|]; exact H.
  - unfold handleSwipe. destruct (js_abs (a - b) >? 50); [| exact H].
    destruct (a - b >? 0); [apply Hn, next_in_range | apply Hn, prev_in_range]; exact H.
  - destruct (in_dec Nat.eq_dec i (liveIntervals s)); [apply Hn, next_in_range | ]; exact H.
Qed.

Lemma run_app_cons rm es1 e es2 s :
  run rm (es1 ++ e :: es2) s = run rm es2 (dispatch rm e (run rm es1 s)).
Proof. unfold run. rewrite fold_left_app. reflexivity. Qed.

Lemma run_in_range rm es s : in_range (slider s) -> in_range (slider (run rm es s)).
Proof.
  revert s. induction es as [|e es IH]; intros s H; simpl; [exact H|].
  apply IH, dispatch_in_range, H.
Qed.

(** The events that always move the slider: the buttons, the arrow keys
    and a swipe over the threshold. *)
Definition navigates (e : event) : bool :=
  match e with
  | ClickPrev | ClickNext | KeyLeft | KeyRight => true
  | TouchSwipe a b => js_abs (a - b) >? 50
  | _ => false
  end.

Lemma dispatch_navigates rm e s :
  navigates e = true -> in_range (slider s) -> active_ok (slider (dispatch rm e s)).
Proof.
  intros He H. unfold dispatch.
  destruct (Z.eqb_spec (HeroSlider.slideCount (slider s)) 0) as [E|_];
    [unfold in_range in H; lia|].
  destruct e as [| | | | | | | | a b | i]; try discriminate He.
  - apply prev_in_range, H.
  - apply next_in_range, H.
  - apply prev_in_range, H.
  - apply next_in_range, H.
  - simpl in He. unfold handleSwipe. rewrite He.
    destruct (a - b >? 0); [apply next_in_range | apply prev_in_range]; exact H.
Qed.

End HeroActiveFacts.

(** X1.  The hero slider never holds more than one autoplay interval: the
    live intervals are exactly the one in [autoplayInterval], and while the
    slideshow is paused there is none. *)
Theorem hero_single_autoplay_interval rm n btn es :
  let s := HeroPlayer.run rm es (HeroPlayer.create rm n btn) in
  HeroPlayer.liveIntervals s
    = match HeroPlayer.autoplayInterval s with Some i => [i] | None => [] end /\
  (HeroPlayer.isPaused s = false \/ HeroPlayer.autoplayInterval s = None).
Proof.
  apply HeroPlayerFacts.run_timers_ok, HeroPlayerFacts.create_timers_ok.
Qed.

(** X2.  Under reduced motion the hero slider never creates an autoplay
    interval, whatever the user does (hover, pause button, keys). *)
Theorem hero_reduced_motion_no_autoplay n btn es :
  let s := HeroPlayer.run true es (HeroPlayer.create true n btn) in
  HeroPlayer.autoplayInterval s = None /\ HeroPlayer.liveIntervals s = [].
Proof.
  apply HeroPlayerFacts.run_no_timer.
  unfold HeroPlayer.create. destruct (n =? 0); split; reflexivity.
Qed.

(** X3.  Once initialised, the hero slider's [aria-live] is ['polite'] when
    paused and ['off'] otherwise, and the pause button's label and glyph
    say "Play slideshow"/play when paused and "Pause slideshow"/pause when
    playing. *)
Theorem hero_aria_matches_pause_state rm n btn es :
  0 < n ->
  let s := HeroPlayer.run rm es (HeroPlayer.create rm n btn) in
  HeroPlayer.ariaLive s = (if HeroPlayer.isPaused s then "polite"%string else "off"%string) /\
  (HeroPlayer.hasPauseBtn s = true ->
     HeroPlayer.pauseLabel s
       = Some (if HeroPlayer.isPaused s then "Play slideshow"%string else "Pause slideshow"%string) /\
     HeroPlayer.pauseIcon s
       = Some (if HeroPlayer.isPaused s then HeroPlayer.PlayGlyph else HeroPlayer.PauseGlyph)).
Proof.
  intros Hn. apply HeroPlayerFacts.run_aria_ok, HeroPlayerFacts.create_aria_ok, Hn.
Qed.

Lemma hero_aria_matches_pause_state_witness :
  HeroPlayer.ariaLive
    (HeroPlayer.run false [HeroPlayer.ClickPause] (HeroPlayer.create false 3 true))
  = "polite"%string.
Proof.
  destruct (hero_aria_matches_pause_state false 3 true [HeroPlayer.ClickPause] ltac:(lia))
    as [H _].
  rewrite H. reflexivity.
Defined.

(** X4.  Starting from the markup, whatever classes it gives the slides,
    with the current slide a valid position: every event keeps the
    current slide a valid position, and once a button, an arrow key or a
    swipe over the threshold has moved the slider, exactly the current
    slide carries the active class, whatever events follow. *)
Theorem hero_exactly_current_slide_active rm s es1 e es2 :
  (0 <= HeroSlider.currentSlide (HeroPlayer.slider s) < HeroSlider.slideCount (HeroPlayer.slider s)) ->
  (forall es, let sl := HeroPlayer.slider (HeroPlayer.run rm es s) in
     0 <= HeroSlider.currentSlide sl < HeroSlider.slideCount (HeroPlayer.slider s)) /\
  (HeroActiveFacts.navigates e = true ->
   let sl := HeroPlayer.slider (HeroPlayer.run rm (es1 ++ e :: es2) s) in
   List.length (HeroSlider.active sl) = Z.to_nat (HeroSlider.slideCount (HeroPlayer.slider s)) /\
   (forall j, (j < Z.to_nat (HeroSlider.slideCount (HeroPlayer.slider s)))%nat ->
      nth j (HeroSlider.active sl) false = (Z.of_nat j =? HeroSlider.currentSlide sl))).
Proof.
  intros Hr. split.
  - intros es. cbv zeta.
    pose proof (HeroActiveFacts.run_in_range rm es s Hr) as H.
    unfold HeroActiveFacts.in_range in H.
    rewrite HeroActiveFacts.player_run_slideCount in H. exact H.
  - intros He. cbv zeta.
    rewrite HeroActiveFacts.run_app_cons.
    set (s1 := HeroPlayer.run rm es1 s).
    assert (Hr1 : HeroActiveFacts.in_range (HeroPlayer.slider s1))
      by exact (HeroActiveFacts.run_in_range rm es1 s Hr).
    assert (Hc1 : HeroSlider.slideCount (HeroPlayer.slider s1)
                  = HeroSlider.slideCount (HeroPlayer.slider s))
      by exact (HeroActiveFacts.player_run_slideCount rm es1 s).
    pose proof (HeroActiveFacts.run_active_ok rm es2 _
                  (HeroActiveFacts.dispatch_navigates rm e s1 He Hr1)) as H.
    assert (Hc : HeroSlider.slideCount (HeroPlayer.slider
                   (HeroPlayer.run rm es2 (HeroPlayer.dispatch rm e s1)))
                 = HeroSlider.slideCount (HeroPlayer.slider s)).
    { rewrite HeroActiveFacts.player_run_slideCount, HeroActiveFacts.player_dispatch_slideCount.
      exact Hc1. }
    split.
    + destruct H as [H _]. rewrite H, length_map, length_seq, Hc. reflexivity.
    + intros j Hj. apply HeroActiveFacts.nth_active; [exact H | rewrite Hc; exact Hj].
Qed.

Lemma hero_exactly_current_slide_active_witness :
  let s := HeroPlayer.with_slider (HeroSlider.mkState 0 3 [false; false; true])
             (HeroPlayer.create false 3 true) in
  nth 1 (HeroSlider.active (HeroPlayer.slider
    (HeroPlayer.run false [HeroPlayer.MouseEnter; HeroPlayer.ClickNext] s))) false = true /\
  nth 2 (HeroSlider.active (HeroPlayer.slider
    (HeroPlayer.run false [HeroPlayer.MouseEnter; HeroPlayer.ClickNext] s))) false = false.
Proof.
  cbv zeta.
  destruct (hero_exactly_current_slide_active false
              (HeroPlayer.with_slider (HeroSlider.mkState 0 3 [false; false; true])
                 (HeroPlayer.create false 3 true))
              [HeroPlayer.MouseEnter] HeroPlayer.ClickNext [] ltac:(simpl; lia))
    as [_ H].
  destruct (H eq_refl) as [_ Hn].
  split; rewrite Hn by (simpl; lia); reflexivity.
Defined.

Module ChooseViewFacts.
Import ChooseSchoolSlider.

(** What [updateSlider] renders, as a predicate on the state. *)
Definition view_ok (cw : option Z) (s : state) : Prop :=
  dots s = map (fun i => Z.of_nat i =? currentIndex s) (seq 0 (dotCount s)) /\
  prevDisabled s = (currentIndex s =? 0) /\
  nextDisabled s = (currentIndex s =? maxIndex s) /\
  transformX (style s)
    = - (currentIndex s * (match cw with Some w => w | None => 0 end + 24)).

Lemma choose_updateSlider_view_ok cw rm s : view_ok cw (updateSlider cw rm s).
Proof. unfold view_ok, updateSlider. destruct rm; repeat split. Qed.

Lemma choose_next_view_ok cw rm s : view_ok cw s -> view_ok cw (goToNext cw rm s).
Proof.
  intros H. unfold goToNext. destruct (currentIndex s <? maxIndex s);
    [apply choose_updateSlider_view_ok | exact H].
Qed.

Lemma choose_prev_view_ok cw rm s : view_ok cw s -> view_ok cw (goToPrev cw rm s).
Proof.
  intros H. unfold goToPrev. destruct (currentIndex s >? 0);
    [apply choose_updateSlider_view_ok | exact H].
Qed.

Lemma choose_dispatch_view_ok cw rm e s : view_ok cw s -> view_ok cw (dispatch cw rm e s).
Proof.
  intros H. unfold dispatch. destruct (cardCount s =? 0); [exact H|].
  destruct e as [| | i | a b | w].
  - apply choose_next_view_ok, H.
  - apply choose_prev_view_ok, H.
  - apply choose_updateSlider_view_ok.
  - unfold handleSwipe. destruct (js_abs (a - b) >? 50); [| exact H].
    destruct (a - b >? 0); [apply choose_next_view_ok | apply choose_prev_view_ok]; exact H.
  - apply choose_updateSlider_view_ok.
Qed.

Lemma choose_run_view_ok cw rm es s : view_ok cw s -> view_ok cw (run cw rm es s).
Proof.
  revert s. induction es as [|e es IH]; intros s H; simpl; [exact H|].
  apply IH, choose_dispatch_view_ok, H.
Qed.

(** The dots and buttons, which do not depend on the card width. *)
Definition dots_ok (s : state) : Prop :=
  dots s = map (fun i => Z.of_nat i =? currentIndex s) (seq 0 (dotCount s)) /\
  prevDisabled s = (currentIndex s =? 0) /\
  nextDisabled s = (currentIndex s =? maxIndex s).

Lemma same_reading_eq a b : same_reading a b = true -> a = b.
Proof.
  destruct a as [x|], b as [y|]; simpl; try discriminate; [|reflexivity].
  intros H. apply Z.eqb_eq in H. subst. reflexivity.
Qed.

(** Every handler either leaves the slider as it is or re-renders it. *)
Lemma choose_dispatch_renders cw rm e s :
  dispatch cw rm e s = s \/ exists s0, dispatch cw rm e s = updateSlider cw rm s0.
Proof.
  unfold dispatch. destruct (cardCount s =? 0); [left; reflexivity|].
  destruct e as [| | i | a b | w].
  - unfold goToNext. destruct (currentIndex s <? maxIndex s); [right; eexists; reflexivity | left; reflexivity].
  - unfold goToPrev. destruct (currentIndex s >? 0); [right; eexists; reflexivity | left; reflexivity].
  - right. eexists. reflexivity.
  - unfold handleSwipe. destruct (js_abs (a - b) >? 50); [| left; reflexivity].
    destruct (a - b >? 0); [unfold goToNext | unfold goToPrev];
      [destruct (currentIndex s <? maxIndex s) | destruct (currentIndex s >? 0)];
      first [right; eexists; reflexivity | left; reflexivity].
  - right. eexists. reflexivity.
Qed.

Lemma choose_dispatch_dots_ok cw rm e s : dots_ok s -> dots_ok (dispatch cw rm e s).
Proof.
  intros H. destruct (choose_dispatch_renders cw rm e s) as [-> | [s0 ->]]; [exact H|].
  destruct (choose_updateSlider_view_ok cw rm s0) as (H1 & H2 & H3 & _).
  split; [exact H1 | split; assumption].
Qed.

Lemma choose_dispatch_cardCount cw rm e s : cardCount (dispatch cw rm e s) = cardCount s.
Proof.
  destruct (choose_dispatch_renders cw rm e s) as [-> | [s0 E]]; [reflexivity|].
  unfold dispatch in *. destruct (cardCount s =? 0); [reflexivity|].
  destruct e as [| | i | a b | w].
  - unfold goToNext in *. destruct (currentIndex s <? maxIndex s); reflexivity.
  - unfold goToPrev in *. destruct (currentIndex s >? 0); reflexivity.
  - reflexivity.
  - unfold handleSwipe, goToNext, goToPrev.
    destruct (js_abs (a - b) >? 50); [| reflexivity].
    destruct (a - b >? 0);
      [destruct (currentIndex s <? maxIndex s) | destruct (currentIndex s >? 0)]; reflexivity.
  - reflexivity.
Qed.

(** Along a run with readings: the dots and buttons always follow the
    index, and the transform follows it with the latest reading as long as
    the reading changes only at resize events. *)
Lemma choose_run_reading_ok rm es c s :
  cardCount s <> 0 -> dots_ok s ->
  dots_ok (run_reading rm es s) /\
  (view_ok c s -> changes_only_at is_resize c es = true ->
   view_ok (last_reading c es) (run_reading rm es s)).
Proof.
  revert c s. induction es as [|[c' e] es IH]; intros c s Hn Hd.
  - split; [exact Hd | intros H _; exact H].
  - unfold run_reading. simpl. fold (run_reading rm es (dispatch c' rm e s)).
    assert (Hn' : cardCount (dispatch c' rm e s) <> 0)
      by (rewrite choose_dispatch_cardCount; exact Hn).
    destruct (IH c' _ Hn' (choose_dispatch_dots_ok c' rm e s Hd)) as [IH1 IH2].
    split; [exact IH1|].
    intros Hv Hc. apply andb_prop in Hc as [Hc Hr]. apply IH2; [| exact Hr].
    apply orb_prop in Hc as [Hs | He].
    + apply same_reading_eq in Hs. subst c'. apply choose_dispatch_view_ok, Hv.
    + destruct e; try discriminate He.
      unfold dispatch. apply Z.eqb_neq in Hn. rewrite Hn.
      apply choose_updateSlider_view_ok.
Qed.

Lemma js_min_idem a b : js_min (js_min a b) b = js_min a b.
Proof. unfold js_min. lia. Qed.

End ChooseViewFacts.

Module BenefitsViewFacts.
Import ExhibitionBenefitsSlider.

Definition slide_width (cw : option Z) : Z := match cw with Some w => w | None => 0 end + 24.

(** The buttons always reflect the index; at rest the track shows the
    current card. *)
Definition view_ok (cw : option Z) (s : state) : Prop :=
  prevDisabled s = (currentIndex s =? 0) /\
  nextDisabled s = (currentIndex s =? maxIndex s) /\
  (isDragging s = false -> transformX (style s) = - (currentIndex s * slide_width cw)).

Lemma benefits_updateSlider_view_ok cw rm s : view_ok cw (updateSlider cw rm s).
Proof. unfold view_ok, updateSlider. destruct rm; repeat split. Qed.

Lemma benefits_next_view_ok cw rm s : view_ok cw s -> view_ok cw (goToNext cw rm s).
Proof.
  intros H. unfold goToNext. destruct (currentIndex s <? maxIndex s);
    [apply benefits_updateSlider_view_ok | exact H].
Qed.

Lemma benefits_prev_view_ok cw rm s : view_ok cw s -> view_ok cw (goToPrev cw rm s).
Proof.
  intros H. unfold goToPrev. destruct (currentIndex s >? 0);
    [apply benefits_updateSlider_view_ok | exact H].
Qed.

Lemma benefits_swipe_view_ok cw rm a b s : view_ok cw s -> view_ok cw (handleSwipe cw rm a b s).
Proof.
  intros H. unfold handleSwipe. destruct (js_abs (a - b) >? 50); [| exact H].
  destruct (a - b >? 0); [apply benefits_next_view_ok | apply benefits_prev_view_ok]; exact H.
Qed.

Lemma benefits_pointerUp_view_ok cw rm s : view_ok cw s -> view_ok cw (onPointerUp cw rm s).
Proof.
  intros H. unfold onPointerUp. destruct (negb (isDragging s)); [exact H|].
  apply benefits_updateSlider_view_ok.
Qed.

Lemma benefits_dispatch_view_ok cw rm e s : view_ok cw s -> view_ok cw (dispatch cw rm e s).
Proof.
  intros H. unfold dispatch. destruct (negb (activated s)); [exact H|].
  destruct e as [| | | | x | x | x | x | x | | dx dy | w].
  - apply benefits_next_view_ok, H.
  - apply benefits_prev_view_ok, H.
  - apply benefits_prev_view_ok, H.
  - apply benefits_next_view_ok, H.
  - destruct H as (H1 & H2 & _). repeat split; [exact H1 | exact H2 | discriminate].
  - unfold onPointerMove. destruct (isDragging s) eqn:E; [| exact H].
    destruct H as (H1 & H2 & _). repeat split; [exact H1 | exact H2 |].
    discriminate.
  - apply benefits_pointerUp_view_ok, benefits_swipe_view_ok, H.
  - destruct H as (H1 & H2 & _). repeat split; [exact H1 | exact H2 | discriminate].
  - unfold onPointerMove. destruct (isDragging s) eqn:E; [| exact H].
    destruct H as (H1 & H2 & _). repeat split; [exact H1 | exact H2 |].
    discriminate.
  - apply benefits_pointerUp_view_ok, H.
  - unfold onWheel. destruct (js_abs dy >? js_abs dx); [| exact H].
    destruct (dy >? 5); [apply benefits_next_view_ok, H|].
    destruct (dy <? -5); [apply benefits_prev_view_ok, H | exact H].
  - apply benefits_updateSlider_view_ok.
Qed.

Lemma benefits_run_view_ok cw rm es s : view_ok cw s -> view_ok cw (run cw rm es s).
Proof.
  revert s. induction es as [|e es IH]; intros s H; simpl; [exact H|].
  apply IH, benefits_dispatch_view_ok, H.
Qed.

Lemma updateSlider_translate cw rm s : currentTranslate (updateSlider cw rm s) = currentTranslate s.
Proof. reflexivity. Qed.

Lemma next_translate cw rm s : currentTranslate (goToNext cw rm s) = currentTranslate s.
Proof. unfold goToNext. destruct (currentIndex s <? maxIndex s); reflexivity. Qed.

Lemma prev_translate cw rm s : currentTranslate (goToPrev cw rm s) = currentTranslate s.
Proof. unfold goToPrev. destruct (currentIndex s >? 0); reflexivity. Qed.

(** The buttons, which do not depend on the card width. *)
Definition buttons_ok (s : state) : Prop :=
  prevDisabled s = (currentIndex s =? 0) /\ nextDisabled s = (currentIndex s =? maxIndex s).

Lemma updateSlider_buttons cw rm s : buttons_ok (updateSlider cw rm s).
Proof. destruct (benefits_updateSlider_view_ok cw rm s) as (H1 & H2 & _). split; assumption. Qed.

Lemma next_buttons cw rm s : buttons_ok s -> buttons_ok (goToNext cw rm s).
Proof.
  intros H. unfold goToNext. destruct (currentIndex s <? maxIndex s);
    [apply updateSlider_buttons | exact H].
Qed.

Lemma prev_buttons cw rm s : buttons_ok s -> buttons_ok (goToPrev cw rm s).
Proof.
  intros H. unfold goToPrev. destruct (currentIndex s >? 0);
    [apply updateSlider_buttons | exact H].
Qed.

Lemma swipe_buttons cw rm a b s : buttons_ok s -> buttons_ok (handleSwipe cw rm a b s).
Proof.
  intros H. unfold handleSwipe. destruct (js_abs (a - b) >? 50); [| exact H].
  destruct (a - b >? 0); [apply next_buttons | apply prev_buttons]; exact H.
Qed.

Lemma pointerUp_buttons cw rm s : buttons_ok s -> buttons_ok (onPointerUp cw rm s).
Proof.
  intros H. unfold onPointerUp. destruct (negb (isDragging s)); [exact H|].
  apply updateSlider_buttons.
Qed.

Lemma benefits_dispatch_buttons cw rm e s : buttons_ok s -> buttons_ok (dispatch cw rm e s).
Proof.
  intros H. unfold dispatch. destruct (negb (activated s)); [exact H|].
  destruct e as [| | | | x | x | x | x | x | | dx dy | w].
  - apply next_buttons, H.
  - apply prev_buttons, H.
  - apply prev_buttons, H.
  - apply next_buttons, H.
  - exact H.
  - unfold onPointerMove. destruct (isDragging s); exact H.
  - apply pointerUp_buttons, swipe_buttons, H.
  - exact H.
  - unfold onPointerMove. destruct (isDragging s); exact H.
  - apply pointerUp_buttons, H.
  - unfold onWheel. destruct (js_abs dy >? js_abs dx); [| exact H].
    destruct (dy >? 5); [apply next_buttons, H|].
    destruct (dy <? -5); [apply prev_buttons, H | exact H].
  - apply updateSlider_buttons.
Qed.

(** Along a run with readings: the buttons always follow the index, and
    at rest the track shows the current card for the latest reading as
    long as the reading changes only at resize events. *)
Lemma benefits_run_reading_ok rm es c s :
  activated s = true -> buttons_ok s ->
  buttons_ok (run_reading rm es s) /\
  (view_ok c s -> changes_only_at is_resize c es = true ->
   view_ok (last_reading c es) (run_reading rm es s)).
Proof.
  revert c s. induction es as [|[c' e] es IH]; intros c s A Hb.
  - split; [exact Hb | intros H _; exact H].
  - unfold run_reading. simpl. fold (run_reading rm es (dispatch c' rm e s)).
    assert (A' : activated (dispatch c' rm e s) = true)
      by (rewrite PageFacts.benefits_dispatch_activated; exact A).
    destruct (IH c' _ A' (benefits_dispatch_buttons c' rm e s Hb)) as [IH1 IH2].
    split; [exact IH1|].
    intros Hv Hc. apply andb_prop in Hc as [Hc Hr]. apply IH2; [| exact Hr].
    apply orb_prop in Hc as [Hs | He].
    + apply ChooseViewFacts.same_reading_eq in Hs. subst c'.
      apply benefits_dispatch_view_ok, Hv.
    + destruct e; try discriminate He.
      unfold dispatch. rewrite A. apply benefits_updateSlider_view_ok.
Qed.

(** The exact value of [Math.round] on [-ct / sw] near a card position. *)
Lemma round_div_at a b k :
  0 < b -> (2 * k - 1) * b <= 2 * a < (2 * k + 1) * b -> js_round_div a b = k.
Proof.
  intros Hb Ha. unfold js_round_div.
  symmetry. apply Z.div_unique with (r := 2 * a + b - 2 * b * k); lia.
Qed.

End BenefitsViewFacts.

(** X5.  Once the school-choice slider is initialised with cards, whatever
    the user does, exactly the dot at the index is active, "previous" is
    disabled iff the index is 0 and "next" iff it is [maxIndex].  Each
    handler reads the card width when it runs; as long as that width
    changes only at resize events, the track is shifted by
    [index * (cardWidth + 24)] pixels for the latest width read. *)
Theorem choose_view_follows_index rm width n ndots c0 es :
  0 < n ->
  let s := ChooseSchoolSlider.run_reading rm es
             (ChooseSchoolSlider.init c0 rm (ChooseSchoolSlider.create width n ndots)) in
  ChooseSchoolSlider.dots s
    = map (fun i => Z.of_nat i =? ChooseSchoolSlider.currentIndex s)
          (seq 0 (ChooseSchoolSlider.dotCount s)) /\
  ChooseSchoolSlider.prevDisabled s = (ChooseSchoolSlider.currentIndex s =? 0) /\
  ChooseSchoolSlider.nextDisabled s
    = (ChooseSchoolSlider.currentIndex s =? ChooseSchoolSlider.maxIndex s) /\
  (changes_only_at ChooseSchoolSlider.is_resize c0 es = true ->
   transformX (ChooseSchoolSlider.style s)
     = - (ChooseSchoolSlider.currentIndex s
          * (match last_reading c0 es with Some w => w | None => 0 end + 24))).
Proof.
  intros Hn. cbv zeta.
  set (s0 := ChooseSchoolSlider.init c0 rm (ChooseSchoolSlider.create width n ndots)).
  assert (Hv : ChooseViewFacts.view_ok c0 s0).
  { unfold s0, ChooseSchoolSlider.init. simpl ChooseSchoolSlider.cardCount.
    destruct (Z.eqb_spec n 0); [lia|]. apply ChooseViewFacts.choose_updateSlider_view_ok. }
  assert (Hc : ChooseSchoolSlider.cardCount s0 <> 0).
  { unfold s0, ChooseSchoolSlider.init. simpl ChooseSchoolSlider.cardCount.
    destruct (Z.eqb_spec n 0); [lia|]. simpl. lia. }
  pose proof Hv as (H1 & H2 & H3 & _).
  destruct (ChooseViewFacts.choose_run_reading_ok rm es c0 s0 Hc (conj H1 (conj H2 H3)))
    as [(D1 & D2 & D3) D].
  split; [exact D1 | split; [exact D2 | split; [exact D3|]]].
  intros Hr. destruct (D Hv Hr) as (_ & _ & _ & T). exact T.
Qed.

Lemma choose_view_follows_index_witness :
  let es := [(Some 300, ChooseSchoolSlider.Next); (Some 200, ChooseSchoolSlider.Resize 700);
             (Some 200, ChooseSchoolSlider.Next)] in
  transformX (ChooseSchoolSlider.style
    (ChooseSchoolSlider.run_reading false es
       (ChooseSchoolSlider.init (Some 300) false (ChooseSchoolSlider.create 1200 6 3))))
  = -448.
Proof.
  cbv zeta.
  destruct (choose_view_follows_index false 1200 6 3 (Some 300)
              [(Some 300, ChooseSchoolSlider.Next); (Some 200, ChooseSchoolSlider.Resize 700);
               (Some 200, ChooseSchoolSlider.Next)] ltac:(lia)) as (_ & _ & _ & H).
  rewrite (H eq_refl). reflexivity.
Defined.

(** X6.  Clicking dot [i] moves to [min i maxIndex] and renders: exactly
    the dot at the new index is active.  The clicked dot is highlighted
    only when [i <= maxIndex]; otherwise the dot at [maxIndex] is the
    active one. *)
Theorem choose_dot_click cw rm (i : nat) s :
  (i < ChooseSchoolSlider.dotCount s)%nat ->
  let s' := ChooseSchoolSlider.goToIndex cw rm (Z.of_nat i) s in
  ChooseSchoolSlider.currentIndex s' = Z.min (Z.of_nat i) (ChooseSchoolSlider.maxIndex s) /\
  ChooseSchoolSlider.dots s'
    = map (fun j => Z.of_nat j =? Z.min (Z.of_nat i) (ChooseSchoolSlider.maxIndex s))
          (seq 0 (ChooseSchoolSlider.dotCount s)) /\
  nth i (ChooseSchoolSlider.dots s') false = (Z.of_nat i <=? ChooseSchoolSlider.maxIndex s) /\
  (0 <= ChooseSchoolSlider.maxIndex s < Z.of_nat i ->
   nth (Z.to_nat (ChooseSchoolSlider.maxIndex s)) (ChooseSchoolSlider.dots s') false = true).
Proof.
  intros Hi. cbv zeta. split; [reflexivity|]. split; [reflexivity|].
  assert (Hnth : forall k, (k < ChooseSchoolSlider.dotCount s)%nat ->
            nth k (ChooseSchoolSlider.dots (ChooseSchoolSlider.goToIndex cw rm (Z.of_nat i) s)) false
            = (Z.of_nat k =? Z.min (Z.of_nat i) (ChooseSchoolSlider.maxIndex s))).
  { intros k Hk.
    unfold ChooseSchoolSlider.goToIndex, ChooseSchoolSlider.updateSlider, js_min. simpl.
    rewrite (nth_indep _ false ((fun j => Z.of_nat j =? Z.min (Z.of_nat i) (ChooseSchoolSlider.maxIndex s)) 0%nat))
      by (rewrite length_map, length_seq; exact Hk).
    rewrite (map_nth (fun j => Z.of_nat j =? Z.min (Z.of_nat i) (ChooseSchoolSlider.maxIndex s))).
    rewrite seq_nth by exact Hk. reflexivity. }
  split.
  - rewrite (Hnth i Hi).
    destruct (Z.leb_spec (Z.of_nat i) (ChooseSchoolSlider.maxIndex s)).
    + apply Z.eqb_eq. lia.
    + apply Z.eqb_neq. lia.
  - intros Hm. rewrite Hnth by lia. apply Z.eqb_eq. lia.
Qed.

Lemma choose_dot_click_witness :
  let s := ChooseSchoolSlider.init None false (ChooseSchoolSlider.create 1200 6 6) in
  nth 5 (ChooseSchoolSlider.dots (ChooseSchoolSlider.goToIndex None false 5 s)) false = false /\
  nth 2 (ChooseSchoolSlider.dots (ChooseSchoolSlider.goToIndex None false 5 s)) false = true.
Proof.
  cbv zeta.
  destruct (choose_dot_click None false 5
              (ChooseSchoolSlider.init None false (ChooseSchoolSlider.create 1200 6 6))
              ltac:(simpl; lia)) as (_ & _ & H & Hm).
  split; [exact H|].
  exact (Hm ltac:(vm_compute; split; [intros E; discriminate E | reflexivity])).
Defined.

(** X7.  The debounced resize handler of both card sliders is idempotent:
    a second resize to the same width changes nothing. *)
Theorem resize_idempotent cw rm w s t :
  ChooseSchoolSlider.onResize cw rm w (ChooseSchoolSlider.onResize cw rm w s)
    = ChooseSchoolSlider.onResize cw rm w s /\
  ExhibitionBenefitsSlider.onResize cw rm w (ExhibitionBenefitsSlider.onResize cw rm w t)
    = ExhibitionBenefitsSlider.onResize cw rm w t.
Proof.
  split.
  - unfold ChooseSchoolSlider.onResize at 1 3. cbn - [js_min js_max].
    rewrite ChooseViewFacts.js_min_idem. destruct rm; reflexivity.
  - unfold ExhibitionBenefitsSlider.onResize at 1 3. cbn - [js_min js_max].
    rewrite ChooseViewFacts.js_min_idem. destruct rm; reflexivity.
Qed.

(** X8.  Widening the window never increases the school-choice slider's
    [maxIndex] nor the index it lands on; an index that still fits is
    kept. *)
Theorem choose_resize_wider cw rm w1 w2 s :
  w1 <= w2 ->
  let a := ChooseSchoolSlider.onResize cw rm w1 s in
  let b := ChooseSchoolSlider.onResize cw rm w2 s in
  ChooseSchoolSlider.getCardsPerView w1 <= ChooseSchoolSlider.getCardsPerView w2 /\
  ChooseSchoolSlider.maxIndex b <= ChooseSchoolSlider.maxIndex a /\
  ChooseSchoolSlider.currentIndex b <= ChooseSchoolSlider.currentIndex a /\
  (ChooseSchoolSlider.currentIndex s <= ChooseSchoolSlider.maxIndex b ->
   ChooseSchoolSlider.currentIndex b = ChooseSchoolSlider.currentIndex s).
Proof.
  intros Hw. cbv zeta.
  assert (Hc : ChooseSchoolSlider.getCardsPerView w1 <= ChooseSchoolSlider.getCardsPerView w2).
  { unfold ChooseSchoolSlider.getCardsPerView.
    destruct (Z.ltb_spec w1 480), (Z.ltb_spec w1 768), (Z.ltb_spec w1 1024),
             (Z.ltb_spec w2 480), (Z.ltb_spec w2 768), (Z.ltb_spec w2 1024); lia. }
  unfold ChooseSchoolSlider.onResize. simpl. unfold js_min, js_max. lia.
Qed.

Lemma choose_resize_wider_witness :
  ChooseSchoolSlider.maxIndex
    (ChooseSchoolSlider.onResize None false 500 (ChooseSchoolSlider.create 500 6 6)) = 5 /\
  ChooseSchoolSlider.maxIndex
    (ChooseSchoolSlider.onResize None false 1200 (ChooseSchoolSlider.create 500 6 6))
  <= ChooseSchoolSlider.maxIndex
    (ChooseSchoolSlider.onResize None false 500 (ChooseSchoolSlider.create 500 6 6)).
Proof.
  split; [reflexivity|].
  destruct (choose_resize_wider None false 500 1200 (ChooseSchoolSlider.create 500 6 6)
              ltac:(lia)) as (_ & H & _).
  exact H.
Defined.

(** X9.  [init] of the benefits slider activates it exactly when it has a
    track and at least one card, and calling it again changes nothing. *)
Theorem benefits_init_activation cw rm s :
  ExhibitionBenefitsSlider.activated (ExhibitionBenefitsSlider.init cw rm s)
    = ExhibitionBenefitsSlider.activated s
      || (ExhibitionBenefitsSlider.hasTrack s
          && negb (ExhibitionBenefitsSlider.cardCount s =? 0)) /\
  ExhibitionBenefitsSlider.init cw rm (ExhibitionBenefitsSlider.init cw rm s)
    = ExhibitionBenefitsSlider.init cw rm s.
Proof.
  unfold ExhibitionBenefitsSlider.init.
  destruct (ExhibitionBenefitsSlider.activated s) eqn:A; [rewrite A; split; reflexivity|].
  destruct (ExhibitionBenefitsSlider.hasTrack s) eqn:T,
           (ExhibitionBenefitsSlider.cardCount s =? 0) eqn:C;
    simpl; rewrite ?A, ?T, ?C; split; reflexivity.
Qed.

(** X10.  Releasing a drag snaps to the card nearest to where the track was
    let go: when the drag ends within half a slide of card [k]
    ([0 <= k <= maxIndex]), the slider lands on [k] and shows it. *)
Theorem benefits_drag_snaps_to_nearest w rm x0 x1 k s :
  ExhibitionBenefitsSlider.activated s = true ->
  0 < w + 24 ->
  0 <= k <= ExhibitionBenefitsSlider.maxIndex s ->
  let ct := ExhibitionBenefitsSlider.currentTranslate s + (x1 - x0) in
  (2 * k - 1) * (w + 24) <= - 2 * ct < (2 * k + 1) * (w + 24) ->
  let s' := ExhibitionBenefitsSlider.run (Some w) rm
              [ExhibitionBenefitsSlider.MouseDown x0; ExhibitionBenefitsSlider.MouseMove x1;
               ExhibitionBenefitsSlider.MouseUp] s in
  ExhibitionBenefitsSlider.currentIndex s' = k /\
  transformX (ExhibitionBenefitsSlider.style s') = - (k * (w + 24)) /\
  ExhibitionBenefitsSlider.isDragging s' = false.
Proof.
  intros A Hw Hk ct Hct. cbv zeta. unfold ExhibitionBenefitsSlider.run. simpl.
  unfold ExhibitionBenefitsSlider.dispatch. repeat (rewrite A; simpl).
  unfold ExhibitionBenefitsSlider.onPointerUp. simpl. repeat (rewrite A; simpl).
  rewrite (BenefitsViewFacts.round_div_at _ _ k Hw) by (unfold ct in Hct; lia).
  unfold js_max, js_min.
  replace (Z.max 0 (Z.min (ExhibitionBenefitsSlider.maxIndex s) k)) with k by lia.
  destruct rm; repeat split.
Qed.

Lemma benefits_drag_snaps_to_nearest_witness :
  let s := ExhibitionBenefitsSlider.init (Some 276) false
             (ExhibitionBenefitsSlider.create 1200 8 true) in
  ExhibitionBenefitsSlider.currentIndex
    (ExhibitionBenefitsSlider.run (Some 276) false
       [ExhibitionBenefitsSlider.MouseDown 700; ExhibitionBenefitsSlider.MouseMove 100;
        ExhibitionBenefitsSlider.MouseUp] s) = 2.
Proof.
  cbv zeta.
  apply (benefits_drag_snaps_to_nearest 276 false 700 100 2
           (ExhibitionBenefitsSlider.init (Some 276) false
              (ExhibitionBenefitsSlider.create 1200 8 true)));
    [reflexivity | lia | vm_compute; split; intros H; discriminate H
    | vm_compute; split; [intros H; discriminate H | reflexivity]].
Defined.

(** X11.  The drag position is not kept in step with the buttons, keys,
    wheel or resize: they leave [currentTranslate] unchanged.  A tap, with
    the mouse (press and release without moving) or with a finger (touch
    start and end at the same point, which is no swipe), sets the index
    from [currentTranslate] alone, whatever the current index is. *)
Theorem benefits_tap_uses_drag_position cw rm x s :
  ExhibitionBenefitsSlider.activated s = true ->
  (forall e, match e with
             | ExhibitionBenefitsSlider.ClickNext | ExhibitionBenefitsSlider.ClickPrev
             | ExhibitionBenefitsSlider.KeyLeft | ExhibitionBenefitsSlider.KeyRight
             | ExhibitionBenefitsSlider.Wheel _ _ | ExhibitionBenefitsSlider.Resize _ => True
             | _ => False end ->
   ExhibitionBenefitsSlider.currentTranslate (ExhibitionBenefitsSlider.dispatch cw rm e s)
     = ExhibitionBenefitsSlider.currentTranslate s) /\
  ExhibitionBenefitsSlider.currentIndex
    (ExhibitionBenefitsSlider.run cw rm
       [ExhibitionBenefitsSlider.MouseDown x; ExhibitionBenefitsSlider.MouseUp] s)
  = js_max 0 (js_min (ExhibitionBenefitsSlider.maxIndex s)
       (js_round_div (- ExhibitionBenefitsSlider.currentTranslate s)
                     (BenefitsViewFacts.slide_width cw))) /\
  ExhibitionBenefitsSlider.currentIndex
    (ExhibitionBenefitsSlider.run cw rm
       [ExhibitionBenefitsSlider.TouchStart x; ExhibitionBenefitsSlider.TouchEnd x] s)
  = js_max 0 (js_min (ExhibitionBenefitsSlider.maxIndex s)
       (js_round_div (- ExhibitionBenefitsSlider.currentTranslate s)
                     (BenefitsViewFacts.slide_width cw))).
Proof.
  intros A. split; [| split].
  - intros e He. unfold ExhibitionBenefitsSlider.dispatch. rewrite A. simpl.
    destruct e as [| | | | x' | x' | x' | x' | x' | | dx dy | w]; try contradiction He.
    + apply BenefitsViewFacts.next_translate.
    + apply BenefitsViewFacts.prev_translate.
    + apply BenefitsViewFacts.prev_translate.
    + apply BenefitsViewFacts.next_translate.
    + unfold ExhibitionBenefitsSlider.onWheel.
      destruct (js_abs dy >? js_abs dx); [| reflexivity].
      destruct (dy >? 5); [apply BenefitsViewFacts.next_translate|].
      destruct (dy <? -5); [apply BenefitsViewFacts.prev_translate | reflexivity].
    + reflexivity.
  - unfold ExhibitionBenefitsSlider.run. simpl.
    unfold ExhibitionBenefitsSlider.dispatch. repeat (rewrite A; simpl). reflexivity.
  - unfold ExhibitionBenefitsSlider.run. simpl.
    unfold ExhibitionBenefitsSlider.dispatch. repeat (rewrite A; simpl).
    unfold ExhibitionBenefitsSlider.handleSwipe. simpl. rewrite Z.sub_diag. simpl.
    reflexivity.
Qed.

Lemma benefits_tap_uses_drag_position_witness :
  let s := ExhibitionBenefitsSlider.run (Some 276) false
             [ExhibitionBenefitsSlider.ClickNext; ExhibitionBenefitsSlider.ClickNext]
             (ExhibitionBenefitsSlider.init (Some 276) false
                (ExhibitionBenefitsSlider.create 1200 8 true)) in
  ExhibitionBenefitsSlider.currentIndex s = 2 /\
  ExhibitionBenefitsSlider.currentIndex
    (ExhibitionBenefitsSlider.run (Some 276) false
       [ExhibitionBenefitsSlider.MouseDown 40; ExhibitionBenefitsSlider.MouseUp] s) = 0 /\
  ExhibitionBenefitsSlider.currentIndex
    (ExhibitionBenefitsSlider.run (Some 276) false
       [ExhibitionBenefitsSlider.TouchStart 40; ExhibitionBenefitsSlider.TouchEnd 40] s) = 0.
Proof.
  cbv zeta. split; [reflexivity|].
  destruct (benefits_tap_uses_drag_position (Some 276) false 40
              (ExhibitionBenefitsSlider.run (Some 276) false
                 [ExhibitionBenefitsSlider.ClickNext; ExhibitionBenefitsSlider.ClickNext]
                 (ExhibitionBenefitsSlider.init (Some 276) false
                    (ExhibitionBenefitsSlider.create 1200 8 true)))
              eq_refl) as (_ & H & Ht).
  rewrite H, Ht. split; reflexivity.
Defined.

(** X12.  Once the benefits slider is activated, whatever happens, its
    "previous" button is disabled iff the index is 0 and its "next" button
    iff the index is [maxIndex].  Each handler reads the card width when it
    runs; as long as that width changes only at resize events, whenever no
    drag is in progress the track shows the current card for the latest
    width read. *)
Theorem benefits_view_follows_index rm width n c0 es :
  0 < n ->
  let s := ExhibitionBenefitsSlider.run_reading rm es
             (ExhibitionBenefitsSlider.init c0 rm (ExhibitionBenefitsSlider.create width n true)) in
  ExhibitionBenefitsSlider.prevDisabled s = (ExhibitionBenefitsSlider.currentIndex s =? 0) /\
  ExhibitionBenefitsSlider.nextDisabled s
    = (ExhibitionBenefitsSlider.currentIndex s =? ExhibitionBenefitsSlider.maxIndex s) /\
  (changes_only_at ExhibitionBenefitsSlider.is_resize c0 es = true ->
   ExhibitionBenefitsSlider.isDragging s = false ->
   transformX (ExhibitionBenefitsSlider.style s)
     = - (ExhibitionBenefitsSlider.currentIndex s
          * BenefitsViewFacts.slide_width (last_reading c0 es))).
Proof.
  intros Hn. cbv zeta.
  set (s0 := ExhibitionBenefitsSlider.init c0 rm (ExhibitionBenefitsSlider.create width n true)).
  assert (E : s0 = ExhibitionBenefitsSlider.updateSlider c0 rm
                     (ExhibitionBenefitsSlider.set_activated
                        (ExhibitionBenefitsSlider.create width n true))).
  { unfold s0, ExhibitionBenefitsSlider.init. simpl.
    destruct (Z.eqb_spec n 0); [lia|]. reflexivity. }
  assert (Hv : BenefitsViewFacts.view_ok c0 s0)
    by (rewrite E; apply BenefitsViewFacts.benefits_updateSlider_view_ok).
  assert (A : ExhibitionBenefitsSlider.activated s0 = true) by (rewrite E; reflexivity).
  pose proof Hv as (H1 & H2 & _).
  destruct (BenefitsViewFacts.benefits_run_reading_ok rm es c0 s0 A (conj H1 H2))
    as [(D1 & D2) D].
  split; [exact D1 | split; [exact D2|]].
  intros Hr. destruct (D Hv Hr) as (_ & _ & T). exact T.
Qed.

Lemma benefits_view_follows_index_witness :
  let es := [(Some 276, ExhibitionBenefitsSlider.ClickNext);
             (Some 200, ExhibitionBenefitsSlider.Resize 700);
             (Some 200, ExhibitionBenefitsSlider.ClickNext)] in
  let s := ExhibitionBenefitsSlider.run_reading false es
             (ExhibitionBenefitsSlider.init (Some 276) false
                (ExhibitionBenefitsSlider.create 1200 6 true)) in
  ExhibitionBenefitsSlider.nextDisabled s = false /\ transformX (ExhibitionBenefitsSlider.style s) = -448.
Proof.
  cbv zeta.
  destruct (benefits_view_follows_index false 1200 6 (Some 276)
              [(Some 276, ExhibitionBenefitsSlider.ClickNext);
               (Some 200, ExhibitionBenefitsSlider.Resize 700);
               (Some 200, ExhibitionBenefitsSlider.ClickNext)] ltac:(lia)) as (_ & H2 & H3).
  split; [rewrite H2; reflexivity|].
  rewrite (H3 eq_refl eq_refl). reflexivity.
Defined.

Module LogosFacts.
Import SchoolLogosSlider.

Definition inv (s : state) : Prop :=
  0 <= scrollLeft s <= maxScroll s /\
  dragging s = isDown s /\
  (isDown s = true -> paused s = true).

Lemma set_scroll_range v s : 0 <= maxScroll s -> 0 <= scrollLeft (set_scroll v s) <= maxScroll s.
Proof. intros H. simpl. lia. Qed.

Lemma logos_dispatch_inv e s : inv s -> inv (dispatch e s).
Proof.
  intros (R & D & P).
  destruct e as [x | x | | | | x | x | | dx dy | |]; cbn [dispatch];
    unfold inv, pointerDown, pointerMove, pointerUp, set_paused, set_scroll, onWheel;
    try destruct (isDown s) eqn:E; cbn;
    repeat split;
    first [lia | reflexivity | exact D | exact P | discriminate | congruence
          | intros; congruence | intros; apply P; reflexivity].
Qed.

Lemma logos_run_inv es s : inv s -> inv (run es s).
Proof.
  revert s. induction es as [|e es IH]; intros s H; simpl; [exact H|].
  apply IH, logos_dispatch_inv, H.
Qed.

Lemma run_maxScroll es s : maxScroll (run es s) = maxScroll s.
Proof.
  revert s. induction es as [|e es IH]; intros s; simpl; [reflexivity|].
  rewrite IH. destruct e; simpl; try reflexivity.
  - unfold pointerMove. destruct (isDown s); reflexivity.
  - unfold pointerMove. destruct (isDown s); reflexivity.
Qed.

End LogosFacts.

Module DebounceFacts.
Import Debounce.

(** [gaps_below wait t calls]: every call comes less than [wait] after
    the previous one (the first after time [t]). *)
Fixpoint gaps_below {A} (wait t : Z) (calls : list (Z * A)) : bool :=
  match calls with
  | [] => true
  | (t', _) :: rest => (t' <? t + wait) && gaps_below wait t' rest
  end.

(** [gaps_above wait t calls]: every call comes more than [wait] after
    the previous one, so the previous call's timeout has run before it
    (no call falls at the instant a timeout is due). *)
Fixpoint gaps_above {A} (wait t : Z) (calls : list (Z * A)) : bool :=
  match calls with
  | [] => true
  | (t', _) :: rest => (t + wait <? t') && gaps_above wait t' rest
  end.

Lemma last_default {B} (l : list B) d d' : l <> [] -> last l d = last l d'.
Proof.
  intros H. induction l as [|x l IH]; [contradiction H; reflexivity|].
  destruct l as [|y l]; [reflexivity|]. apply IH. discriminate.
Qed.

Lemma burst_pending {A} wait tend (rest : list (Z * A)) t a :
  gaps_below wait t rest = true ->
  let '(tl, al) := last ((t, a) :: rest) (t, a) in
  run_calls wait rest (Some (t + wait, a)) tend = if tl + wait <=? tend then [al] else [].
Proof.
  revert t a. induction rest as [|[t' a'] rest IH]; intros t a H; simpl.
  { destruct (t + wait <=? tend); reflexivity. }
  apply andb_prop in H as [H1 H2]. apply Z.ltb_lt in H1.
  unfold call, fire_due. destruct (Z.leb_spec (t + wait) t'); [lia|]. simpl.
  specialize (IH t' a' H2). simpl in IH.
  destruct rest as [|p rest]; [exact IH|].
  rewrite (last_default (p :: rest) (t, a) (t', a')) by discriminate. exact IH.
Qed.

Lemma spaced_pending {A} wait tend (rest : list (Z * A)) t a :
  gaps_above wait t rest = true ->
  fst (last ((t, a) :: rest) (t, a)) + wait <= tend ->
  run_calls wait rest (Some (t + wait, a)) tend = a :: map snd rest.
Proof.
  revert t a. induction rest as [|[t' a'] rest IH]; intros t a H Hend; simpl.
  - simpl in Hend. destruct (Z.leb_spec (t + wait) tend); [reflexivity | lia].
  - apply andb_prop in H as [H1 H2]. apply Z.ltb_lt in H1.
    unfold call, fire_due. destruct (Z.leb_spec (t + wait) t'); [| lia]. simpl.
    rewrite IH; [reflexivity | exact H2 |].
    destruct rest as [|p rest]; [exact Hend|].
    change (last ((t, a) :: (t', a') :: p :: rest) (t, a)) with (last (p :: rest) (t, a)) in Hend.
    change (last ((t', a') :: p :: rest) (t', a')) with (last (p :: rest) (t', a')).
    rewrite (last_default (p :: rest) (t', a') (t, a)) by discriminate. exact Hend.
Qed.

End DebounceFacts.

Module HeaderFacts.
Import Header.

(** The scroll position of the last update (the load position first). *)
Fixpoint last_scrollY (y0 : Z) (es : list event) : Z :=
  match es with
  | [] => y0
  | Update y :: rest => last_scrollY y rest
  | _ :: rest => last_scrollY y0 rest
  end.

Definition inv (y : Z) (s : state) : Prop :=
  atTopClass s = (y =? 0) /\ wasAtTop s = (y =? 0) /\
  animated s = match animTimer s with Some _ => true | None => false end.

Lemma header_dispatch_inv rm e y s : inv y s -> inv (match e with Update y' => y' | _ => y end) (dispatch rm e s).
Proof.
  intros (A & W & T). destruct e as [y' | | i]; simpl.
  - unfold updateHeaderAtTop. simpl.
    destruct (negb rm && (y' =? 0) && negb (wasAtTop s)); simpl; repeat split; exact T.
  - destruct (rafPending s); simpl; repeat split; assumption.
  - destruct (timer_is i (animTimer s)); simpl; repeat split; assumption.
Qed.

Lemma header_run_inv rm es y s : inv y s -> inv (last_scrollY y es) (run rm es s).
Proof.
  revert y s. induction es as [|e es IH]; intros y s H; simpl; [exact H|].
  pose proof (header_dispatch_inv rm e y s H) as H'.
  destruct e; apply IH, H'.
Qed.

Lemma header_load_inv rm y0 : inv y0 (load rm y0).
Proof.
  unfold load, updateHeaderAtTop, inv. simpl.
  destruct rm, (y0 =? 0); repeat split.
Qed.

Definition still (s : state) : Prop :=
  animated s = false /\ animTimer s = None /\ rafPending s = false.

Lemma dispatch_still e s : still s -> still (dispatch true e s).
Proof.
  intros (A & T & R). destruct e as [y | | i]; simpl.
  - repeat split; assumption.
  - rewrite R. repeat split; assumption.
  - rewrite T. repeat split; assumption.
Qed.

Lemma run_still es s : still s -> still (run true es s).
Proof.
  revert s. induction es as [|e es IH]; intros s H; simpl; [exact H|].
  apply IH, dispatch_still, H.
Qed.

End HeaderFacts.

Module PageExtraFacts.
Import Page.

(** The benefits slider keeps the track and card count it was created
    with. *)
Definition shape (t : bool) (n : Z) (st : state) : Prop :=
  exists b, benefitsSlider st = Some b /\ B.hasTrack b = t /\ B.cardCount b = n.

Definition shape_of (t : bool) (n : Z) (o : option B.state) : Prop :=
  exists b, o = Some b /\ B.hasTrack b = t /\ B.cardCount b = n.

Lemma shape_of_init cw rm t n x :
  shape_of t n (Some x) -> shape_of t n (Some (B.init cw rm x)).
Proof.
  intros (b & Hb & Ht & Hn). injection Hb as <-. exists (B.init cw rm x).
  destruct (PageFacts.benefits_init_shape cw rm x). split; [reflexivity | split; congruence].
Qed.

Lemma shape_of_dispatch cw rm t n be x :
  shape_of t n (Some x) -> shape_of t n (Some (B.dispatch cw rm be x)).
Proof.
  intros (b & Hb & Ht & Hn). injection Hb as <-. exists (B.dispatch cw rm be x).
  destruct (PageFacts.benefits_dispatch_shape cw rm be x). split; [reflexivity | split; congruence].
Qed.

Lemma callback_shape cw rm entries t n st :
  shape t n st -> shape t n (callback cw rm entries st).
Proof.
  apply (PageFacts.callback_slider_pred (shape_of t n)). apply shape_of_init.
Qed.

Lemma run_shape cw rm es t n st : shape t n st -> shape t n (run cw rm es st).
Proof.
  apply (PageFacts.run_slider_pred (shape_of t n)); [apply shape_of_init | apply shape_of_dispatch].
Qed.

(** Without a track or without cards the benefits slider stays inactive. *)
Definition inert_of (o : option B.state) : Prop :=
  forall b, o = Some b -> B.activated b = false /\ (B.hasTrack b = false \/ B.cardCount b = 0).

Definition inert (st : state) : Prop := inert_of (benefitsSlider st).

Lemma inert_of_init cw rm x : inert_of (Some x) -> inert_of (Some (B.init cw rm x)).
Proof.
  intros H b' Hb'. injection Hb' as <-. destruct (H x eq_refl) as [Ha Hs].
  unfold B.init. rewrite Ha.
  destruct Hs as [Hs | Hs]; rewrite Hs; simpl;
    [split; [exact Ha | left; exact Hs] |].
  rewrite orb_true_r. split; [exact Ha | right; exact Hs].
Qed.

Lemma inert_of_dispatch cw rm be x : inert_of (Some x) -> inert_of (Some (B.dispatch cw rm be x)).
Proof.
  intros H b' Hb'. injection Hb' as <-. destruct (H x eq_refl) as [Ha Hs].
  rewrite (BenefitsFacts.dispatch_inactive cw rm be x Ha).
  split; assumption.
Qed.

Lemma step_inert cw rm e st : inert st -> inert (step cw rm e st).
Proof.
  apply (PageFacts.step_slider_pred inert_of); [apply inert_of_init | apply inert_of_dispatch].
Qed.

(** An activated benefits slider shows its index. *)
Definition live_of (cw : option Z) (o : option B.state) : Prop :=
  forall b, o = Some b -> B.activated b = true -> BenefitsViewFacts.view_ok cw b.

Definition live_ok (cw : option Z) (st : state) : Prop := live_of cw (benefitsSlider st).

Lemma live_of_init cw rm x : live_of cw (Some x) -> live_of cw (Some (B.init cw rm x)).
Proof.
  intros H b' Hb'. injection Hb' as <-. unfold B.init.
  destruct (B.activated x) eqn:A; [intros _; apply (H x eq_refl A)|].
  destruct (negb (B.hasTrack x) || (B.cardCount x =? 0)); [rewrite A; discriminate|].
  intros _. apply BenefitsViewFacts.benefits_updateSlider_view_ok.
Qed.

Lemma live_of_dispatch cw rm be x : live_of cw (Some x) -> live_of cw (Some (B.dispatch cw rm be x)).
Proof.
  intros H b' Hb'. injection Hb' as <-. intros A.
  destruct (B.activated x) eqn:A0.
  - apply BenefitsViewFacts.benefits_dispatch_view_ok, (H x eq_refl A0).
  - rewrite (BenefitsFacts.dispatch_inactive cw rm be x A0) in A. rewrite A0 in A. discriminate.
Qed.

Lemma callback_live cw rm entries st : live_ok cw st -> live_ok cw (callback cw rm entries st).
Proof.
  apply (PageFacts.callback_slider_pred (live_of cw)). apply live_of_init.
Qed.

Lemma step_live cw rm e st : live_ok cw st -> live_ok cw (step cw rm e st).
Proof.
  apply (PageFacts.step_slider_pred (live_of cw)); [apply live_of_init | apply live_of_dispatch].
Qed.

Lemma load_live cw rm c : live_ok cw (load rm c).
Proof.
  intros b Hb. unfold load, initScrollAnimations in Hb.
  destruct c as [[[w n] t]|]; destruct rm; simpl in Hb; try discriminate;
    injection Hb as <-; discriminate.
Qed.

End PageExtraFacts.

Lemma page_run_live cw rm es st :
  PageExtraFacts.live_ok cw st -> PageExtraFacts.live_ok cw (Page.run cw rm es st).
Proof.
  revert st. induction es as [|e es IH]; intros st H; simpl; [exact H|].
  apply IH, PageExtraFacts.step_live, H.
Qed.

Lemma page_run_inert cw rm es st : PageExtraFacts.inert st -> PageExtraFacts.inert (Page.run cw rm es st).
Proof.
  revert st. induction es as [|e es IH]; intros st H; simpl; [exact H|].
  apply IH, PageExtraFacts.step_inert, H.
Qed.

(** X13.  On a school-logos strip whose scroll position starts in range,
    any mix of mouse, touch, wheel and key events keeps [scrollLeft] in
    [[0, scrollWidth - clientWidth]], shows the [is-dragging] class exactly
    while a press is held, and keeps the marquee animation paused during a
    press. *)
Theorem logos_state_invariant mx sl es :
  0 <= sl <= mx ->
  let s := SchoolLogosSlider.run es (SchoolLogosSlider.create mx sl) in
  0 <= SchoolLogosSlider.scrollLeft s <= mx /\
  SchoolLogosSlider.dragging s = SchoolLogosSlider.isDown s /\
  (SchoolLogosSlider.isDown s = true -> SchoolLogosSlider.paused s = true).
Proof.
  intros H. cbv zeta.
  destruct (LogosFacts.logos_run_inv es (SchoolLogosSlider.create mx sl)) as (R & D & P).
  { split; [exact H | split; [reflexivity | discriminate]]. }
  rewrite LogosFacts.run_maxScroll in R. split; [exact R | split; assumption].
Qed.

Lemma logos_state_invariant_witness :
  SchoolLogosSlider.scrollLeft
    (SchoolLogosSlider.run [SchoolLogosSlider.KeyRight; SchoolLogosSlider.KeyRight]
       (SchoolLogosSlider.create 300 0)) <= 300.
Proof.
  destruct (logos_state_invariant 300 0
              [SchoolLogosSlider.KeyRight; SchoolLogosSlider.KeyRight] ltac:(lia))
    as ((_ & H) & _).
  exact H.
Defined.

(** X14.  Dragging the logos strip scrolls it by the distance moved,
    measured from where the press started (clamped to the scroll range);
    moving back to the starting point restores the position the strip had
    when pressed, even if it hit an end on the way; moves with no press
    held do nothing. *)
Theorem logos_drag_round_trip x0 x1 s :
  0 <= SchoolLogosSlider.scrollLeft s <= SchoolLogosSlider.maxScroll s ->
  SchoolLogosSlider.scrollLeft
    (SchoolLogosSlider.run [SchoolLogosSlider.MouseDown x0; SchoolLogosSlider.MouseMove x1] s)
    = Z.max 0 (Z.min (SchoolLogosSlider.maxScroll s)
                 (SchoolLogosSlider.scrollLeft s + (x0 - x1))) /\
  SchoolLogosSlider.scrollLeft
    (SchoolLogosSlider.run [SchoolLogosSlider.MouseDown x0; SchoolLogosSlider.MouseMove x1;
                            SchoolLogosSlider.MouseMove x0] s)
    = SchoolLogosSlider.scrollLeft s /\
  (SchoolLogosSlider.isDown s = false ->
   SchoolLogosSlider.dispatch (SchoolLogosSlider.MouseMove x1) s = s /\
   SchoolLogosSlider.dispatch (SchoolLogosSlider.TouchMove x1) s = s).
Proof.
  intros H. split; [reflexivity|]. split.
  - simpl. lia.
  - intros D. simpl. unfold SchoolLogosSlider.pointerMove. rewrite D. split; reflexivity.
Qed.

Lemma logos_drag_round_trip_witness :
  SchoolLogosSlider.scrollLeft
    (SchoolLogosSlider.run [SchoolLogosSlider.MouseDown 500; SchoolLogosSlider.MouseMove 0;
                            SchoolLogosSlider.MouseMove 500] (SchoolLogosSlider.create 300 100))
  = 100.
Proof.
  destruct (logos_drag_round_trip 500 0 (SchoolLogosSlider.create 300 100) ltac:(simpl; lia))
    as (_ & H & _).
  exact H.
Defined.

(** X15.  A burst of calls to a debounced function, each less than [wait]
    after the previous one, runs the function at most once: with the
    arguments of the last call, and only if time reaches [wait] after that
    call. *)
Theorem debounce_burst_runs_once {A} wait t (a : A) rest tend :
  DebounceFacts.gaps_below wait t rest = true ->
  let '(tl, al) := last ((t, a) :: rest) (t, a) in
  Debounce.run_calls wait ((t, a) :: rest) None tend
    = if tl + wait <=? tend then [al] else [].
Proof.
  intros H. pose proof (DebounceFacts.burst_pending wait tend rest t a H) as E.
  destruct (last ((t, a) :: rest) (t, a)) as [tl al].
  exact E.
Qed.

Lemma debounce_burst_runs_once_witness :
  Debounce.run_calls 250 [(0, 1%nat); (100, 2%nat); (300, 3%nat)] None 1000 = [3%nat].
Proof.
  exact (debounce_burst_runs_once 250 0 1%nat [(100, 2%nat); (300, 3%nat)] 1000 eq_refl).
Defined.

(** X16.  Calls spaced more than [wait] apart each run the function once,
    in order, with their own arguments (when time runs on to [wait] after
    the last one). *)
Theorem debounce_spaced_calls_all_run {A} wait t (a : A) rest tend :
  DebounceFacts.gaps_above wait t rest = true ->
  fst (last ((t, a) :: rest) (t, a)) + wait <= tend ->
  Debounce.run_calls wait ((t, a) :: rest) None tend = map snd ((t, a) :: rest).
Proof.
  intros H Hend. exact (DebounceFacts.spaced_pending wait tend rest t a H Hend).
Qed.

Lemma debounce_spaced_calls_all_run_witness :
  Debounce.run_calls 250 [(0, 1%nat); (300, 2%nat); (700, 3%nat)] None 950 = [1%nat; 2%nat; 3%nat].
Proof.
  exact (debounce_spaced_calls_all_run 250 0 1%nat [(300, 2%nat); (700, 3%nat)] 950
           eq_refl ltac:(simpl; lia)).
Defined.

(** X17.  The header's [header--at-top] class always reflects the last
    scroll position it was updated with ([scrollY === 0]), and
    [is-animated] is present exactly while its removal timer is pending. *)
Theorem header_at_top_tracks_scroll rm y0 es :
  let s := Header.run rm es (Header.load rm y0) in
  Header.atTopClass s = (HeaderFacts.last_scrollY y0 es =? 0) /\
  Header.animated s = match Header.animTimer s with Some _ => true | None => false end.
Proof.
  destruct (HeaderFacts.header_run_inv rm es y0 (Header.load rm y0) (HeaderFacts.header_load_inv rm y0))
    as (A & _ & T).
  split; assumption.
Qed.

(** X18.  Under reduced motion the header never plays its entrance
    animation: no [is-animated] class, no timer, no animation frame. *)
Theorem header_reduced_motion_never_animates y0 es :
  let s := Header.run true es (Header.load true y0) in
  Header.animated s = false /\ Header.animTimer s = None /\ Header.rafPending s = false.
Proof.
  apply HeaderFacts.run_still.
  unfold Header.load, Header.updateHeaderAtTop, HeaderFacts.still. simpl.
  repeat split.
Qed.

(** X21.  Submit-time validation touches the required inputs only, in
    document order: each gets its previous error cleared, and exactly the
    failing ones get one error message; optional inputs are left alone. *)
Theorem validateForm_trace form :
  snd (FormValidator.validateForm form)
  = flat_map (fun f => FormValidator.ClearError (FormValidator.id f) ::
                if fst (FormValidator.fieldCheck f) then []
                else [FormValidator.ShowError (FormValidator.id f)
                        (snd (FormValidator.fieldCheck f))])
             (filter FormValidator.required form).
Proof.
  unfold FormValidator.validateForm. rewrite FormFacts.validate_each_eq. simpl.
  apply flat_map_ext. intros f. rewrite FormFacts.validateField_eq. simpl.
  destruct (fst (FormValidator.fieldCheck f)); reflexivity.
Qed.

(** X22.  A benefits container without a track or without cards is never
    activated, whatever intersections and slider events happen. *)
Theorem page_benefits_without_cards_stays_inactive cw rm w n t es :
  t = false \/ n = 0 ->
  forall b, Page.benefitsSlider (Page.run cw rm es (Page.load rm (Some (w, n, t)))) = Some b ->
  ExhibitionBenefitsSlider.activated b = false.
Proof.
  intros Hc b Hb.
  refine (proj1 (page_run_inert cw rm es _ _ b Hb)).
  intros b' Hb'. unfold Page.load, Page.initScrollAnimations in Hb'.
  destruct rm; simpl in Hb'; injection Hb' as <-; simpl; split; auto.
Qed.

Lemma page_benefits_without_cards_stays_inactive_witness :
  Page.benefitsSlider
    (Page.run None false [Page.Intersection Page.ExhibitionBenefits true; Page.Deliver]
       (Page.load false (Some (1200, 0, true))))
  = Some (ExhibitionBenefitsSlider.create 1200 0 true) /\
  ExhibitionBenefitsSlider.activated (ExhibitionBenefitsSlider.create 1200 0 true) = false.
Proof.
  split; [reflexivity|].
  apply (page_benefits_without_cards_stays_inactive None false 1200 0 true
           [Page.Intersection Page.ExhibitionBenefits true; Page.Deliver] (or_intror eq_refl)).
  reflexivity.
Defined.

(** X23.  When the benefits container has a track and cards, the first
    time its section, still observed, crosses the threshold and the queued
    entries are delivered (whatever happened before), the slider is
    activated and its buttons reflect its index. *)
Theorem page_benefits_activates_on_first_sight cw rm w n es :
  0 < n ->
  let st := Page.run cw rm es (Page.load rm (Some (w, n, true))) in
  PageFacts.observed st Page.ExhibitionBenefits ->
  exists b,
    Page.benefitsSlider
      (Page.run cw rm [Page.Intersection Page.ExhibitionBenefits true; Page.Deliver] st)
      = Some b /\
    ExhibitionBenefitsSlider.activated b = true /\
    ExhibitionBenefitsSlider.prevDisabled b = (ExhibitionBenefitsSlider.currentIndex b =? 0) /\
    ExhibitionBenefitsSlider.nextDisabled b
      = (ExhibitionBenefitsSlider.currentIndex b =? ExhibitionBenefitsSlider.maxIndex b).
Proof.
  intros Hn st Hobs.
  assert (Hs : PageExtraFacts.shape true n st).
  { apply PageExtraFacts.run_shape.
    exists (ExhibitionBenefitsSlider.create w n true).
    unfold Page.load, Page.initScrollAnimations. destruct rm; repeat split. }
  assert (Hl : PageExtraFacts.live_ok cw st)
    by exact (page_run_live cw rm es _ (PageExtraFacts.load_live cw rm _)).
  unfold PageFacts.observed in Hobs.
  destruct (Page.observer st) as [targets|] eqn:Eo; [| contradiction].
  rewrite (PageFacts.deliver_after cw rm _ true st targets Eo Hobs).
  rewrite PageFacts.callback_app, PageFacts.callback_single.
  set (s1 := Page.callback cw rm (Page.queued st) _).
  destruct (PageExtraFacts.callback_shape cw rm (Page.queued st) true n
              (Page.mkState (Page.observer st) [] (Page.revealLog st) (Page.benefitsSlider st)
                 (Page.benefitsInitCalls st)) Hs) as (b & Hb & Ht & Hc).
  pose proof (PageExtraFacts.callback_live cw rm (Page.queued st)
                (Page.mkState (Page.observer st) [] (Page.revealLog st) (Page.benefitsSlider st)
                   (Page.benefitsInitCalls st)) Hl) as Hl1.
  fold s1 in Hb, Hl1.
  rewrite PageFacts.onEntry_slider.
  destruct (Page.section_eq_dec Page.ExhibitionBenefits Page.ExhibitionBenefits)
    as [_ | Hne]; [| contradiction Hne; reflexivity].
  rewrite Hb. simpl. exists (ExhibitionBenefitsSlider.init cw rm b). split; [reflexivity|].
  unfold ExhibitionBenefitsSlider.init.
  destruct (ExhibitionBenefitsSlider.activated b) eqn:A.
  - split; [exact A|].
    destruct (Hl1 b Hb A) as (H1 & H2 & _).
    split; assumption.
  - rewrite Ht, Hc. destruct (Z.eqb_spec n 0); [lia|]. simpl.
    split; [reflexivity | split; reflexivity].
Qed.

Lemma page_benefits_activates_on_first_sight_witness :
  exists b,
    Page.benefitsSlider
      (Page.run None false [Page.Intersection Page.ExhibitionBenefits true; Page.Deliver]
         (Page.run None false [Page.Intersection Page.Stats true; Page.Deliver]
            (Page.load false (Some (1200, 6, true)))))
    = Some b /\ ExhibitionBenefitsSlider.activated b = true.
Proof.
  destruct (page_benefits_activates_on_first_sight None false 1200 6
              [Page.Intersection Page.Stats true; Page.Deliver] ltac:(lia))
    as (b & H1 & H2 & _).
  { unfold PageFacts.observed. simpl. right; right; right; left. reflexivity. }
  exists b. split; assumption.
Defined.
